(** * Token-ledger chaincode: a shallow embedding and its properties

  The development embeds the two chaincode sources of the repository,

  - [chaincode-go/chaincode/token_contract.go], whose [transferHelper]
    keeps a bare base-10 integer string per key (module [Compact]), and
  - the second chaincode file, whose [transferHelper] keeps JSON [User]
    records (module [Rich]),

  over an explicit model of the Fabric stub (world state, write set,
  event, transaction id) and of the Go library functions they call
  ([strconv.Itoa], [strconv.Atoi], [encoding/json]). *)

From Stdlib Require Import ZArith Lia Ascii String List.
From stdpp Require Import base option gmap strings.

Local Open Scope string_scope.
Local Open Scope Z_scope.

(** ** Go's [int]: 64-bit two's complement, arithmetic wraps around *)

Module GoInt.

Definition MaxInt : Z := 9223372036854775807.
Definition MinInt : Z := -9223372036854775808.

Definition is_int (z : Z) : Prop := MinInt <= z <= MaxInt.

Definition wrap (z : Z) : Z := (z + 2 ^ 63) mod 2 ^ 64 - 2 ^ 63.

Definition add (a b : Z) : Z := wrap (a + b).
Definition sub (a b : Z) : Z := wrap (a - b).

End GoInt.

(** ** [strconv]: decimal printing and parsing of [int] *)

Module strconv.

Inductive NumError := ErrSyntax | ErrRange.

Definition digit (d : Z) : ascii := ascii_of_N (Z.to_N (48 + d)).

Definition is_digit (c : ascii) : bool :=
  (48 <=? Z.of_N (N_of_ascii c)) && (Z.of_N (N_of_ascii c) <=? 57).

Definition digit_val (c : ascii) : Z := Z.of_N (N_of_ascii c) - 48.

(** [formatBits], base 10: the digits are produced from the least
    significant one, [fuel] bounds the number of digits (a [uint64] has at
    most 20). *)
Fixpoint formatBits (fuel : nat) (u : Z) (acc : string) : string :=
  match fuel with
  | O => acc
  | S fuel' =>
      if u <? 10 then String (digit u) acc
      else formatBits fuel' (u / 10) (String (digit (u mod 10)) acc)
  end.

Definition Itoa (i : Z) : string :=
  if i <? 0 then String "-" (formatBits 20 (- i) "") else formatBits 20 i "".

Definition maxUint64 : Z := 18446744073709551615.

(** The loop of [ParseUint(s, 10, 64)]. *)
Fixpoint ParseUint_loop (s : string) (n : Z) : Z * option NumError :=
  match s with
  | EmptyString => (n, None)
  | String c s' =>
      if is_digit c then
        if maxUint64 / 10 + 1 <=? n then (maxUint64, Some ErrRange)
        else
          let n1 := n * 10 + digit_val c in
          if maxUint64 <? n1 then (maxUint64, Some ErrRange)
          else ParseUint_loop s' n1
      else (0, Some ErrSyntax)
  end.

Definition ParseUint (s : string) : Z * option NumError :=
  match s with
  | EmptyString => (0, Some ErrSyntax)
  | _ => ParseUint_loop s 0
  end.

(** [ParseInt(s, 10, 0)]. *)
Definition ParseInt (s : string) : Z * option NumError :=
  match s with
  | EmptyString => (0, Some ErrSyntax)
  | String c s' =>
      let neg := Ascii.eqb c "-" in
      let body := if Ascii.eqb c "+" || neg then s' else s in
      match ParseUint body with
      | (_, Some ErrSyntax) => (0, Some ErrSyntax)
      | (un, _) =>
          let cutoff := 2 ^ 63 in
          if negb neg && (cutoff <=? un) then (cutoff - 1, Some ErrRange)
          else if neg && (cutoff <? un) then (- cutoff, Some ErrRange)
          else (if neg then - un else un, None)
      end
  end.

(** [Atoi] is [ParseInt(s, 10, 0)]; its fast path for short inputs
    computes the same result. *)
Definition Atoi (s : string) : Z * option NumError := ParseInt s.

End strconv.

(** ** Records of the contract *)

(** [event]: the payload of the Transfer event. *)
Record event := mkEvent { From : string; To : string; Value : Z }.

(** [User]: an account record ([Type_] is the field [Type]). *)
Record User := mkUser { ID : string; Type_ : string; Balance : Z }.

(** [Transaction]: the fields [TXID], [From], [To], [Value]. *)
Record Transaction :=
  mkTransaction { TXID : string; TxFrom : string; TxTo : string; TxValue : Z }.

(** ** Errors and results

    A Go [error] is modelled by its message; [fmt.Errorf] builds the
    message, [%v] and [%s] splice a message or a string, [%d] is [Itoa]. *)

Inductive result (A : Type) : Type :=
| Ok (a : A)
| Err (msg : string).
Arguments Ok {A} a.
Arguments Err {A} msg.

Definition is_ok {A} (r : result A) : bool :=
  match r with Ok _ => true | Err _ => false end.

(** ** The stub of one invocation

    [GetState] reads the committed world state (never the writes staged by
    the running invocation), [PutState] stages a write, [SetEvent] sets the
    event of the transaction.  The peer may refuse any of these calls:
    [Host] says which, and with what message. *)

Record Host := mkHost {
  getError : string -> option string;
  putError : string -> option string;
  eventError : option string
}.

Record Stub := mkStub {
  host : Host;
  txid : string;
  world : gmap string string;
  rset : list string;
  wset : list (string * string);
  events : list (string * string)
}.

Definition M (A : Type) : Type := Stub -> result A * Stub.

Definition ret {A} (a : A) : M A := fun st => (Ok a, st).

Definition fail {A} (msg : string) : M A := fun st => (Err msg, st).

Definition bind {A B} (m : M A) (k : A -> M B) : M B :=
  fun st =>
    match m st with
    | (Ok a, st') => k a st'
    | (Err msg, st') => (Err msg, st')
    end.

(** [x, err := m; if err != nil { return f(err) }] *)
Definition orReturn {A} (m : M A) (f : string -> string) : M A :=
  fun st =>
    match m st with
    | (Ok a, st') => (Ok a, st')
    | (Err msg, st') => (Err (f msg), st')
    end.

Notation "x <- m ;; k" := (bind m (fun x => k))
  (at level 100, m at next level, right associativity).
Notation "m1 ;;; m2" := (bind m1 (fun _ => m2))
  (at level 100, right associativity).

Module shim.

Definition GetState (key : string) : M (option string) :=
  fun st =>
    let st' := mkStub (host st) (txid st) (world st) (rset st ++ [key])
                      (wset st) (events st) in
    match getError (host st) key with
    | Some msg => (Err msg, st')
    | None => (Ok (world st !! key), st')
    end.

Definition PutState (key value : string) : M unit :=
  fun st =>
    match putError (host st) key with
    | Some msg => (Err msg, st)
    | None =>
        (Ok tt, mkStub (host st) (txid st) (world st) (rset st)
                       (wset st ++ [(key, value)]) (events st))
    end.

Definition SetEvent (name payload : string) : M unit :=
  fun st =>
    match eventError (host st) with
    | Some msg => (Err msg, st)
    | None =>
        (Ok tt, mkStub (host st) (txid st) (world st) (rset st)
                       (wset st) (events st ++ [(name, payload)]))
    end.

Definition GetTxID : M string := fun st => (Ok (txid st), st).

End shim.

(** ** The host around an invocation

    The peer runs an invocation on a fresh stub over the committed world
    state; the staged writes and the event reach the ledger only when the
    invocation returns no error. *)

Definition begin (h : Host) (tx : string) (w : gmap string string) : Stub :=
  mkStub h tx w [] [] [].

Definition commit (w : gmap string string) (ws : list (string * string))
  : gmap string string :=
  fold_left (fun m kv => <[kv.1 := kv.2]> m) ws w.

Definition invoke {A} (h : Host) (tx : string) (m : M A)
  (w : gmap string string)
  : result A * gmap string string * list (string * string) :=
  match m (begin h tx w) with
  | (Ok a, st) => (Ok a, commit w (wset st), events st)
  | (Err msg, _) => (Err msg, w, [])
  end.

(** A host that refuses nothing. *)
Definition reliable : Host := mkHost (fun _ => None) (fun _ => None) None.

(** ** [encoding/json] for the three records *)

Class JSON := {
  MarshalUser : User -> string;
  UnmarshalUser : string -> result User;
  MarshalTransaction : Transaction -> string;
  UnmarshalTransaction : string -> result Transaction;
  MarshalEvent : event -> string
}.

(** [[]byte(nil)] reaches [json.Unmarshal] as the empty input. *)
Definition bytesOf (b : option string) : string := default "" b.

(** ** [token_contract.go]: balances kept as bare integer strings

    [transferHelper] of this file reads and writes a base-10 integer string
    per key, while [InitLedger], [GetUser] and [BalanceOf] of the same file
    write and read JSON [User] records.

    [log.Printf] has no effect on the stub and is left out.  [json.Marshal]
    cannot fail on these records, so its error branch is not reachable. *)

Module Compact.
Section Contract.
Context {J : JSON}.

Definition assets : list User :=
  [ mkUser "TestUser" "user" 100000; mkUser "TestSeller" "seller" 0 ].

Fixpoint putAssets (l : list User) : M unit :=
  match l with
  | [] => ret tt
  | asset :: rest =>
      let assetJSON := MarshalUser asset in
      orReturn (shim.PutState (ID asset) assetJSON)
               (fun err => "failed to put to world state. " +:+ err) ;;;
      putAssets rest
  end.

Definition InitLedger : M unit := putAssets assets.

Definition GetUser (id : string) : M User :=
  transactionJSON <-
    orReturn (shim.GetState id)
             (fun err => "failed to read from world state: " +:+ err) ;;
  match UnmarshalUser (bytesOf transactionJSON) with
  | Err _ => fail ""
  | Ok user => ret user
  end.

Definition BalanceOf (id : string) : M Z :=
  user <- orReturn (GetUser id)
                   (fun _ => "user id " +:+ id +:+ " does not exist") ;;
  let balance := Balance user in
  ret balance.

Definition transferHelper (from to : string) (value : Z) : M unit :=
  if String.eqb from to then
    fail "cannot transfer to and from same client account"
  else if value <? 0 then
    fail "transfer amount cannot be negative"
  else
    fromCurrentBalanceBytes <-
      orReturn (shim.GetState from)
               (fun err => "failed to read client account " +:+ from +:+
                           " from world state: " +:+ err) ;;
    match fromCurrentBalanceBytes with
    | None => fail ("client account " +:+ from +:+ " has no balance")
    | Some fromBytes =>
        let fromCurrentBalance := (strconv.Atoi fromBytes).1 in
        if fromCurrentBalance <? value then
          fail ("client account " +:+ from +:+ " has insufficient funds")
        else
          toCurrentBalanceBytes <-
            orReturn (shim.GetState to)
                     (fun err => "failed to read recipient account " +:+ to +:+
                                 " from world state: " +:+ err) ;;
          let toCurrentBalance :=
            match toCurrentBalanceBytes with
            | None => 0
            | Some toBytes => (strconv.Atoi toBytes).1
            end in
          let fromUpdatedBalance := GoInt.sub fromCurrentBalance value in
          let toUpdatedBalance := GoInt.add toCurrentBalance value in
          shim.PutState from (strconv.Itoa fromUpdatedBalance) ;;;
          shim.PutState to (strconv.Itoa toUpdatedBalance) ;;;
          ret tt
    end.

Definition SetEvent (eventName : string) (e : event) : M unit :=
  let transferEvent := e in
  let transferEventJSON := MarshalEvent transferEvent in
  orReturn (shim.SetEvent "Transfer" transferEventJSON)
           (fun err => "failed to set event: " +:+ err) ;;;
  ret tt.

Definition TransferFrom (from to : string) (value : Z) : M unit :=
  orReturn (transferHelper from to value)
           (fun err => "failed to transfer: " +:+ err) ;;;
  SetEvent "Transfer" (mkEvent from to value) ;;;
  ret tt.

Definition UserExist (id : string) : M bool :=
  userJSON <-
    orReturn (shim.GetState id)
             (fun err => "failed to read from world state: " +:+ err) ;;
  ret (bool_decide (userJSON <> None)).

Definition GetTransaction (txid : string) : M Transaction :=
  transactionJSON <-
    orReturn (shim.GetState txid)
             (fun err => "failed to read from world state: " +:+ err) ;;
  match UnmarshalTransaction (bytesOf transactionJSON) with
  | Err _ => fail ""
  | Ok transaction => ret transaction
  end.

(** The balance [transferHelper] reads at a key: the integer [Atoi] returns
    (its error dropped), and 0 for an absent key, as for a recipient. *)
Definition stored (w : gmap string string) (id : string) : Z :=
  match w !! id with
  | None => 0
  | Some b => (strconv.Atoi b).1
  end.

(** Every balance [transferHelper] can read is non-negative. *)
Definition nonneg (w : gmap string string) : Prop :=
  forall id, 0 <= stored w id.

(** The exported methods of the contract, which the host can ask for, and
    the two helpers of the file that read the world state. *)
Inductive Call :=
| CallInitLedger
| CallBalanceOf (id : string)
| CallTransferFrom (from to : string) (value : Z)
| CallUserExist (id : string)
| CallGetTransaction (txid : string).

Definition call (c : Call) : M unit :=
  match c with
  | CallInitLedger => InitLedger
  | CallBalanceOf id => _ <- BalanceOf id ;; ret tt
  | CallTransferFrom from to value => TransferFrom from to value
  | CallUserExist id => _ <- UserExist id ;; ret tt
  | CallGetTransaction txid => _ <- GetTransaction txid ;; ret tt
  end.

(** The world state once the host has dealt with the invocation. *)
Definition next (h : Host) (tx : string) (c : Call) (w : gmap string string)
  : gmap string string :=
  (invoke h tx (call c) w).1.2.

(** The amount is an [int] and the recipient's balance can take it. *)
Definition fits (c : Call) (w : gmap string string) : Prop :=
  match c with
  | CallTransferFrom from to value =>
      GoInt.is_int value /\ stored w to + value <= GoInt.MaxInt
  | _ => True
  end.

End Contract.
End Compact.

(** ** The second chaincode file: balances kept in JSON [User] records

    Every function of this file reads and writes JSON records;
    [SetTransaction] is an entry point of its own, called by no other
    function. *)

Module Rich.
Section Contract.
Context {J : JSON}.

Definition assets : list User :=
  [ mkUser "TestUser" "user" 100000; mkUser "TestSeller" "seller" 0 ].

Fixpoint putAssets (l : list User) : M unit :=
  match l with
  | [] => ret tt
  | asset :: rest =>
      let assetJSON := MarshalUser asset in
      orReturn (shim.PutState (ID asset) assetJSON)
               (fun err => "failed to put to world state. " +:+ err) ;;;
      putAssets rest
  end.

Definition InitLedger : M unit := putAssets assets.

Definition GetUser (id : string) : M User :=
  transactionJSON <-
    orReturn (shim.GetState id)
             (fun err => "failed to read from world state: " +:+ err) ;;
  match UnmarshalUser (bytesOf transactionJSON) with
  | Err err => fail err
  | Ok user => ret user
  end.

Definition BalanceOf (id : string) : M Z :=
  user <- orReturn (GetUser id)
                   (fun _ => "user id " +:+ id +:+ " does not exist") ;;
  let balance := Balance user in
  ret balance.

Definition transferHelper (from to : string) (value : Z) : M unit :=
  if String.eqb from to then
    fail "cannot transfer to and from same client account"
  else if value <? 0 then
    fail "transfer amount cannot be negative"
  else
    fromUser <- GetUser from ;;
    toUser <- GetUser to ;;
    if Balance fromUser <? value then
      fail ("user balance lower than " +:+ strconv.Itoa value)
    else
      let fromUser' :=
        mkUser (ID fromUser) (Type_ fromUser)
               (GoInt.sub (Balance fromUser) value) in
      let toUser' :=
        mkUser (ID toUser) (Type_ toUser) (GoInt.add (Balance toUser) value) in
      let fromUserJSON := MarshalUser fromUser' in
      let toUserJSON := MarshalUser toUser' in
      shim.PutState from fromUserJSON ;;;
      shim.PutState to toUserJSON ;;;
      ret tt.

Definition SetEvent (eventName : string) (e : event) : M unit :=
  let transferEvent := e in
  let transferEventJSON := MarshalEvent transferEvent in
  orReturn (shim.SetEvent "Transfer" transferEventJSON)
           (fun err => "failed to set event: " +:+ err) ;;;
  ret tt.

Definition TransferFrom (from to : string) (value : Z) : M unit :=
  orReturn (transferHelper from to value)
           (fun err => "failed to transfer: " +:+ err) ;;;
  SetEvent "Transfer" (mkEvent from to value) ;;;
  ret tt.

Definition UserExist (id : string) : M bool :=
  userJSON <-
    orReturn (shim.GetState id)
             (fun err => "failed to read from world state: " +:+ err) ;;
  ret (bool_decide (userJSON <> None)).

Definition GetTransaction (txid : string) : M Transaction :=
  transactionJSON <-
    orReturn (shim.GetState txid)
             (fun err => "failed to read from world state: " +:+ err) ;;
  match UnmarshalTransaction (bytesOf transactionJSON) with
  | Err err => fail err
  | Ok transaction => ret transaction
  end.

Definition SetTransaction (from to : string) (balance : Z) : M Transaction :=
  txid <- shim.GetTxID ;;
  let transaction := mkTransaction txid from to balance in
  let transactionJSON := MarshalTransaction transaction in
  shim.PutState txid transactionJSON ;;;
  ret transaction.

(** The balance [BalanceOf] finds at a key: that of the record stored
    there, when it decodes. *)
Definition stored (w : gmap string string) (id : string) : option Z :=
  match UnmarshalUser (bytesOf (w !! id)) with
  | Ok user => Some (Balance user)
  | Err _ => None
  end.

(** Every balance that decodes is non-negative. *)
Definition nonneg (w : gmap string string) : Prop :=
  forall id b, stored w id = Some b -> 0 <= b.

(** The exported methods of the contract: what the host can ask for. *)
Inductive Call :=
| CallInitLedger
| CallBalanceOf (id : string)
| CallTransferFrom (from to : string) (value : Z)
| CallSetEvent (eventName : string) (e : event)
| CallGetUser (id : string)
| CallUserExist (id : string)
| CallGetTransaction (txid : string)
| CallSetTransaction (from to : string) (balance : Z).

Definition call (c : Call) : M unit :=
  match c with
  | CallInitLedger => InitLedger
  | CallBalanceOf id => _ <- BalanceOf id ;; ret tt
  | CallTransferFrom from to value => TransferFrom from to value
  | CallSetEvent eventName e => SetEvent eventName e
  | CallGetUser id => _ <- GetUser id ;; ret tt
  | CallUserExist id => _ <- UserExist id ;; ret tt
  | CallGetTransaction txid => _ <- GetTransaction txid ;; ret tt
  | CallSetTransaction from to balance =>
      _ <- SetTransaction from to balance ;; ret tt
  end.

(** The world state once the host has dealt with the invocation. *)
Definition next (h : Host) (tx : string) (c : Call) (w : gmap string string)
  : gmap string string :=
  (invoke h tx (call c) w).1.2.

(** The amount is an [int] and the recipient's balance can take it. *)
Definition fits (c : Call) (w : gmap string string) : Prop :=
  match c with
  | CallTransferFrom from to value =>
      GoInt.is_int value /\
      forall t, stored w to = Some t -> t + value <= GoInt.MaxInt
  | CallSetTransaction from to balance => GoInt.is_int balance
  | _ => True
  end.

End Contract.
End Rich.

(** ** A concrete [encoding/json] for flat objects

    [GoJSON] prints the three records as [json.Marshal] does and reads flat
    JSON objects whose values are strings, integers, [true], [false] or
    [null].  Strings are handled bytewise: text outside ASCII is copied as
    it is, and a [\u] escape above U+007F is refused.  Of the error texts
    of the library only the one for an empty input is reproduced. *)

Module GoJSON.

Definition dq : ascii := "034"%char.
Definition backslash : ascii := "092"%char.

Definition hexDigit (n : N) : ascii :=
  if (n <? 10)%N then ascii_of_N (48 + n) else ascii_of_N (87 + n).

Definition hexVal (c : ascii) : option N :=
  let n := N_of_ascii c in
  if ((48 <=? n) && (n <=? 57))%N then Some (n - 48)%N
  else if ((97 <=? n) && (n <=? 102))%N then Some (n - 87)%N
  else if ((65 <=? n) && (n <=? 70))%N then Some (n - 55)%N
  else None.

(** One byte of a string, as the encoder writes it with HTML escaping on:
    short escapes for the quote, the backslash, [\n], [\r] and [\t],
    [\u00XX] for the other control characters and for [<], [>] and [&]. *)
Definition escapeByte (c : ascii) : string :=
  let n := N_of_ascii c in
  if (n =? 34)%N || (n =? 92)%N then String backslash (String c "")
  else if (n =? 10)%N then String backslash "n"
  else if (n =? 13)%N then String backslash "r"
  else if (n =? 9)%N then String backslash "t"
  else if (n <? 32)%N || (n =? 60)%N || (n =? 62)%N || (n =? 38)%N then
    String backslash
      (String "u" (String "0" (String "0"
         (String (hexDigit (n / 16)) (String (hexDigit (n mod 16)) "")))))
  else String c "".

Fixpoint escape (s : string) : string :=
  match s with
  | EmptyString => EmptyString
  | String c s' => escapeByte c +:+ escape s'
  end.

Definition quoted (s : string) : string :=
  String dq (escape s +:+ String dq "").

Definition member (name value : string) : string :=
  String dq (name +:+ String dq (String ":" value)).

Definition marshalUser (u : User) : string :=
  "{" +:+ member "ID" (quoted (ID u)) +:+
  "," +:+ member "type" (quoted (Type_ u)) +:+
  "," +:+ member "balance" (strconv.Itoa (Balance u)) +:+ "}".

Definition marshalTransaction (t : Transaction) : string :=
  "{" +:+ member "TXID" (quoted (TXID t)) +:+
  "," +:+ member "from" (quoted (TxFrom t)) +:+
  "," +:+ member "to" (quoted (TxTo t)) +:+
  "," +:+ member "value" (strconv.Itoa (TxValue t)) +:+ "}".

Definition marshalEvent (e : event) : string :=
  "{" +:+ member "from" (quoted (From e)) +:+
  "," +:+ member "to" (quoted (To e)) +:+
  "," +:+ member "value" (strconv.Itoa (Value e)) +:+ "}".

Inductive value := VString (s : string) | VNumber (n : Z) | VBool (b : bool) | VNull.

Definition isSpace (c : ascii) : bool :=
  let n := N_of_ascii c in
  ((n =? 32) || (n =? 9) || (n =? 10) || (n =? 13))%N.

Fixpoint skipSpace (s : string) : string :=
  match s with
  | String c s' => if isSpace c then skipSpace s' else s
  | EmptyString => EmptyString
  end.

Definition simpleEscape (c : ascii) : option ascii :=
  let n := N_of_ascii c in
  if (n =? 34)%N || (n =? 92)%N || (n =? 47)%N then Some c
  else if (n =? 98)%N then Some (ascii_of_N 8)
  else if (n =? 102)%N then Some (ascii_of_N 12)
  else if (n =? 110)%N then Some (ascii_of_N 10)
  else if (n =? 114)%N then Some (ascii_of_N 13)
  else if (n =? 116)%N then Some (ascii_of_N 9)
  else None.

Definition hex4 (a b c d : ascii) : option N :=
  match hexVal a, hexVal b, hexVal c, hexVal d with
  | Some x3, Some x2, Some x1, Some x0 =>
      Some (((x3 * 16 + x2) * 16 + x1) * 16 + x0)%N
  | _, _, _, _ => None
  end.

Definition cons_to {B} (c : ascii) (r : option (string * B))
  : option (string * B) :=
  match r with
  | Some (s, rest) => Some (String c s, rest)
  | None => None
  end.

(** The text of a string literal after its opening quote, and what follows
    the closing quote. *)
Fixpoint unquote (s : string) : option (string * string) :=
  match s with
  | EmptyString => None
  | String c s1 =>
      if Ascii.eqb c dq then Some (EmptyString, s1)
      else if Ascii.eqb c backslash then
        match s1 with
        | EmptyString => None
        | String e s2 =>
            match simpleEscape e with
            | Some ch => cons_to ch (unquote s2)
            | None =>
                if Ascii.eqb e "u" then
                  match s2 with
                  | String h1 (String h2 (String h3 (String h4 s3))) =>
                      match hex4 h1 h2 h3 h4 with
                      | Some n =>
                          if (n <? 128)%N then cons_to (ascii_of_N n) (unquote s3)
                          else None
                      | None => None
                      end
                  | _ => None
                  end
                else None
            end
        end
      else if (N_of_ascii c <? 32)%N then None
      else cons_to c (unquote s1)
  end.

(** The longest prefix of digits, and the rest. *)
Fixpoint digitSpan (s : string) : string * string :=
  match s with
  | String c s' =>
      if strconv.is_digit c then
        let (ds, rest) := digitSpan s' in (String c ds, rest)
      else (EmptyString, s)
  | EmptyString => (EmptyString, EmptyString)
  end.

(** No leading zero in front of other digits. *)
Definition wellFormed (ds : string) : bool :=
  match ds with
  | EmptyString => false
  | String c EmptyString => true
  | String c _ => negb (Ascii.eqb c "0")
  end.

(** An integer literal of the JSON grammar, converted as the decoder does
    for an [int] field ([strconv.ParseInt]); a fraction, an exponent or a
    value out of range is an error for such a field. *)
Definition readInt (s : string) : option (Z * string) :=
  let (neg, s1) :=
    match s with
    | String c s' => if Ascii.eqb c "-" then (true, s') else (false, s)
    | EmptyString => (false, s)
    end in
  let (ds, rest) := digitSpan s1 in
  let plain :=
    match rest with
    | String c _ =>
        negb (Ascii.eqb c "." || Ascii.eqb c "e" || Ascii.eqb c "E")
    | EmptyString => true
    end in
  if wellFormed ds && plain then
    match strconv.ParseInt (if neg then String "-" ds else ds) with
    | (n, None) => Some (n, rest)
    | (_, Some _) => None
    end
  else None.

Fixpoint startsWith (p s : string) : option string :=
  match p with
  | EmptyString => Some s
  | String a p' =>
      match s with
      | String b s' => if Ascii.eqb a b then startsWith p' s' else None
      | EmptyString => None
      end
  end.

Definition readValue (s : string) : option (value * string) :=
  match s with
  | EmptyString => None
  | String c s' =>
      if Ascii.eqb c dq then
        match unquote s' with
        | Some (text, rest) => Some (VString text, rest)
        | None => None
        end
      else if Ascii.eqb c "-" || strconv.is_digit c then
        match readInt s with
        | Some (n, rest) => Some (VNumber n, rest)
        | None => None
        end
      else
        match startsWith "true" s, startsWith "false" s, startsWith "null" s with
        | Some rest, _, _ => Some (VBool true, rest)
        | _, Some rest, _ => Some (VBool false, rest)
        | _, _, Some rest => Some (VNull, rest)
        | _, _, _ => None
        end
  end.

(** The members of an object after its opening brace, in order; [fuel]
    bounds their number. *)
Fixpoint readMembers (fuel : nat) (s : string) (acc : list (string * value))
  : option (list (string * value) * string) :=
  match fuel with
  | O => None
  | S fuel' =>
      match skipSpace s with
      | String c s1 =>
          if Ascii.eqb c dq then
            match unquote s1 with
            | Some (key, s2) =>
                match skipSpace s2 with
                | String c2 s3 =>
                    if Ascii.eqb c2 ":" then
                      match readValue (skipSpace s3) with
                      | Some (v, s4) =>
                          match skipSpace s4 with
                          | String c4 s5 =>
                              if Ascii.eqb c4 "," then
                                readMembers fuel' s5 (acc ++ [(key, v)])%list
                              else if Ascii.eqb c4 "}" then
                                Some ((acc ++ [(key, v)])%list, s5)
                              else None
                          | EmptyString => None
                          end
                      | None => None
                      end
                    else None
                | EmptyString => None
                end
            | None => None
            end
          else None
      | EmptyString => None
      end
  end.

Inductive parsed :=
| EndOfInput
| Invalid
| Object (members : list (string * value)).

(** A whole document holding one flat object. *)
Definition readObject (s : string) : parsed :=
  match skipSpace s with
  | EmptyString => EndOfInput
  | String c s1 =>
      if Ascii.eqb c "{" then
        match skipSpace s1 with
        | String c1 s2 =>
            if Ascii.eqb c1 "}" then
              match skipSpace s2 with
              | EmptyString => Object []
              | _ => Invalid
              end
            else
              match readMembers (String.length s1) s1 [] with
              | Some (ms, rest) =>
                  match skipSpace rest with
                  | EmptyString => Object ms
                  | _ => Invalid
                  end
              | None => Invalid
              end
        | EmptyString => EndOfInput
        end
      else Invalid
  end.

Definition lower (c : ascii) : ascii :=
  let n := N_of_ascii c in
  if ((65 <=? n) && (n <=? 90))%N then ascii_of_N (n + 32) else c.

Fixpoint lowerString (s : string) : string :=
  match s with
  | EmptyString => EmptyString
  | String c s' => String (lower c) (lowerString s')
  end.

(** Keys select fields without regard to case. *)
Definition names (key field : string) : bool :=
  String.eqb (lowerString key) (lowerString field).

Definition setString (v : value) (old : string) : option string :=
  match v with
  | VString s => Some s
  | VNull => Some old
  | _ => None
  end.

Definition setInt (v : value) (old : Z) : option Z :=
  match v with
  | VNumber n => Some n
  | VNull => Some old
  | _ => None
  end.

Definition userMember (acc : option User) (m : string * value) : option User :=
  match acc with
  | None => None
  | Some u =>
      let (key, v) := m in
      if names key "ID" then
        option_map (fun s => mkUser s (Type_ u) (Balance u)) (setString v (ID u))
      else if names key "type" then
        option_map (fun s => mkUser (ID u) s (Balance u)) (setString v (Type_ u))
      else if names key "balance" then
        option_map (fun n => mkUser (ID u) (Type_ u) n) (setInt v (Balance u))
      else Some u
  end.

Definition transactionMember (acc : option Transaction) (m : string * value)
  : option Transaction :=
  match acc with
  | None => None
  | Some t =>
      let (key, v) := m in
      if names key "TXID" then
        option_map (fun s => mkTransaction s (TxFrom t) (TxTo t) (TxValue t))
                   (setString v (TXID t))
      else if names key "from" then
        option_map (fun s => mkTransaction (TXID t) s (TxTo t) (TxValue t))
                   (setString v (TxFrom t))
      else if names key "to" then
        option_map (fun s => mkTransaction (TXID t) (TxFrom t) s (TxValue t))
                   (setString v (TxTo t))
      else if names key "value" then
        option_map (fun n => mkTransaction (TXID t) (TxFrom t) (TxTo t) n)
                   (setInt v (TxValue t))
      else Some t
  end.

Definition endOfInput : string := "unexpected end of JSON input".
Definition badInput : string := "json: cannot unmarshal input".

Definition unmarshalUser (b : string) : result User :=
  match readObject b with
  | EndOfInput => Err endOfInput
  | Invalid => Err badInput
  | Object ms =>
      match fold_left userMember ms (Some (mkUser "" "" 0)) with
      | Some u => Ok u
      | None => Err badInput
      end
  end.

Definition unmarshalTransaction (b : string) : result Transaction :=
  match readObject b with
  | EndOfInput => Err endOfInput
  | Invalid => Err badInput
  | Object ms =>
      match fold_left transactionMember ms (Some (mkTransaction "" "" "" 0)) with
      | Some t => Ok t
      | None => Err badInput
      end
  end.

End GoJSON.

#[export] Instance goJSON : JSON := {|
  MarshalUser := GoJSON.marshalUser;
  UnmarshalUser := GoJSON.unmarshalUser;
  MarshalTransaction := GoJSON.marshalTransaction;
  UnmarshalTransaction := GoJSON.unmarshalTransaction;
  MarshalEvent := GoJSON.marshalEvent
|}.

(** What the development assumes of [encoding/json]: the empty input is
    refused, a decoded [int] field is in range, a printed [User] reads back
    with its balance, a printed [User] is a JSON object, and a printed
    [Transaction], which has no member named [balance], does not read as a
    [User] with a negative balance. *)
Record JSONLaws (J : JSON) : Prop := {
  unmarshal_user_empty : exists msg, UnmarshalUser "" = Err msg;
  unmarshal_user_int :
    forall b u, UnmarshalUser b = Ok u -> GoInt.is_int (Balance u);
  marshal_user_balance :
    forall u, GoInt.is_int (Balance u) ->
      exists u', UnmarshalUser (MarshalUser u) = Ok u' /\ Balance u' = Balance u;
  marshal_user_object : forall u, exists rest, MarshalUser u = String "{" rest;
  unmarshal_transaction_empty : exists msg, UnmarshalTransaction "" = Err msg;
  transaction_as_user :
    forall t u, GoInt.is_int (TxValue t) ->
      UnmarshalUser (MarshalTransaction t) = Ok u -> 0 <= Balance u
}.

(** The records [transferHelper] writes back. *)
Definition debit (u : User) (value : Z) : User :=
  mkUser (ID u) (Type_ u) (GoInt.sub (Balance u) value).
Definition credit (u : User) (value : Z) : User :=
  mkUser (ID u) (Type_ u) (GoInt.add (Balance u) value).

(** ** World states and hosts used in the examples *)

Module Scenario.

Definition user (id ty : string) (balance : Z) : string :=
  GoJSON.marshalUser (mkUser id ty balance).

(** After [InitLedger]. *)
Definition seeded : gmap string string :=
  {[ "TestUser" := user "TestUser" "user" 100000;
     "TestSeller" := user "TestSeller" "seller" 0 ]}.

(** Integer-string balances; the recipient holds the largest [int]. *)
Definition fullCompact : gmap string string :=
  {[ "A" := "1"; "B" := "9223372036854775807" ]}.

(** [User] records; the recipient holds the largest [int]. *)
Definition fullRich : gmap string string :=
  {[ "A" := user "A" "user" 1; "B" := user "B" "seller" GoInt.MaxInt ]}.

(** A sender alone, with a balance of 50. *)
Definition loneCompact : gmap string string := {[ "A" := "50" ]}.
Definition loneRich : gmap string string := {[ "A" := user "A" "user" 50 ]}.

(** A sender whose stored balance is negative. *)
Definition debtCompact : gmap string string := {[ "A" := "-5"; "B" := "0" ]}.
Definition debtRich : gmap string string :=
  {[ "A" := user "A" "user" (-5); "B" := user "B" "seller" 0 ]}.

(** Two accounts with small balances. *)
Definition pairCompact : gmap string string := {[ "A" := "5"; "B" := "1" ]}.
Definition pairRich : gmap string string :=
  {[ "A" := user "A" "user" 5; "B" := user "B" "seller" 1 ]}.

(** Bytes at the sender that are no integer. *)
Definition garbled : gmap string string := {[ "A" := "abc"; "B" := "5" ]}.

(** After [TransferFrom("TestUser", "TestSeller", 2500)] on [seeded]. *)
Definition settled : gmap string string :=
  {[ "TestUser" := user "TestUser" "user" 97500;
     "TestSeller" := user "TestSeller" "seller" 2500 ]}.

(** After [TransferFrom("A", "B", 1)] on [fullCompact] and on [fullRich]. *)
Definition wrappedCompact : gmap string string :=
  {[ "A" := "0"; "B" := "-9223372036854775808" ]}.
Definition wrappedRich : gmap string string :=
  {[ "A" := user "A" "user" 0; "B" := user "B" "seller" GoInt.MinInt ]}.

(** [settled] with the record of that transfer stored under [tx1]. *)
Definition recorded : gmap string string :=
  <[ "tx1" := GoJSON.marshalTransaction
                (mkTransaction "tx1" "TestUser" "TestSeller" 2500) ]> settled.

(** The Transfer event of a transfer. *)
Definition transferred (from to : string) (value : Z) : string * string :=
  ("Transfer", GoJSON.marshalEvent (mkEvent from to value)).

(** A host that refuses every write to one key. *)
Definition refusing (key : string) : Host :=
  mkHost (fun _ => None)
         (fun k => if String.eqb k key then Some "refused" else None)
         None.

(** A host that refuses the event. *)
Definition mute : Host :=
  mkHost (fun _ => None) (fun _ => None) (Some "refused").

End Scenario.

(** Auxiliary predicates on digit strings. *)
Module Digits.
Import strconv.

Definition headDigit (s : string) : Prop :=
  match s with String c _ => is_digit c = true | EmptyString => False end.

Fixpoint allDigits (s : string) : Prop :=
  match s with
  | String c s' => is_digit c = true /\ allDigits s'
  | EmptyString => True
  end.

Definition noDigitAhead (s : string) : Prop :=
  match s with String c _ => is_digit c = false | EmptyString => True end.

End Digits.

(** Auxiliary predicates on what the reader meets. *)
Module Reader.
Import GoJSON.

(** A member name that needs no escape. *)
Definition plainName (name : string) : Prop :=
  forall rest, unquote (name +:+ String dq rest) = Some (name, rest).

(** A member whose number, if it holds one, is an [int]. *)
Definition inRange (m : string * value) : Prop :=
  match m.2 with VNumber n => GoInt.is_int n | _ => True end.

End Reader.

(** ** Predicates and sums over a world state *)

Module Kept.
Section Kept.
Context {J : JSON}.

(** Every stored value is an integer that [Atoi] reads without error. *)
Definition integers (w : gmap string string) : Prop :=
  forall k b, w !! k = Some b -> (strconv.Atoi b).2 = None.

(** Every stored value decodes as a [User]. *)
Definition decodable (w : gmap string string) : Prop :=
  forall k b, w !! k = Some b -> is_ok (UnmarshalUser b) = true.

End Kept.
End Kept.

Module Supply.
Section Supply.
Context {J : JSON}.

(** The sum over the stored values of what each is worth. *)
Definition total (worth : string -> Z) (w : gmap string string) : Z :=
  map_fold (fun _ b acc => worth b + acc) 0 w.

(** What [transferHelper] of [token_contract.go] reads in a value. *)
Definition asInteger (b : string) : Z := (strconv.Atoi b).1.

(** The balance of the record a value decodes to, 0 when it does not. *)
Definition asRecord (b : string) : Z :=
  match UnmarshalUser b with
  | Ok user => Balance user
  | Err _ => 0
  end.

End Supply.
End Supply.

(** * Properties *)

(** ** [strconv] *)

Section StrconvFacts.
Import strconv GoInt Digits.

Lemma digit_is_digit d : 0 <= d < 10 -> is_digit (digit d) = true /\ digit_val (digit d) = d.
Proof.
  intros H.
  assert (d = 0 \/ d = 1 \/ d = 2 \/ d = 3 \/ d = 4 \/ d = 5 \/ d = 6 \/ d = 7
          \/ d = 8 \/ d = 9) as Hd by lia.
  repeat (destruct Hd as [-> | Hd]; [split; reflexivity |]).
  subst d; split; reflexivity.
Qed.

Lemma is_digit_val c : is_digit c = true -> 0 <= digit_val c < 10.
Proof.
  unfold is_digit, digit_val. intros H.
  apply andb_true_iff in H as [H1 H2]. lia.
Qed.

Lemma ParseUint_loop_digit d acc n :
  0 <= d < 10 -> 0 <= n -> n * 10 + d <= maxUint64 ->
  ParseUint_loop (String (digit d) acc) n = ParseUint_loop acc (n * 10 + d).
Proof.
  intros Hd Hn Hmax. destruct (digit_is_digit d Hd) as [Hdig Hval].
  cbn [ParseUint_loop]. rewrite Hdig, Hval.
  change (maxUint64 / 10 + 1) with 1844674407370955162.
  unfold maxUint64 in *.
  destruct (Z.leb_spec 1844674407370955162 n); [lia |].
  destruct (Z.ltb_spec 18446744073709551615 (n * 10 + d)); [lia | reflexivity].
Qed.

(** Reading the digits that [formatBits] wrote for [u] takes the loop from
    [n] to [n * p + u], where [p] is the power of ten of their number. *)
Lemma ParseUint_loop_formatBits fuel :
  forall u acc, 0 <= u < 10 ^ Z.of_nat fuel ->
    exists p, 0 < p /\
      forall n, 0 <= n -> n * p + u <= maxUint64 ->
        ParseUint_loop (formatBits fuel u acc) n = ParseUint_loop acc (n * p + u).
Proof.
  induction fuel as [| fuel IH]; intros u acc Hu.
  - exists 1. split; [lia |]. intros n _ _. cbn in Hu.
    replace (n * 1 + u) with n by lia. reflexivity.
  - rewrite Nat2Z.inj_succ, Z.pow_succ_r in Hu by lia.
    cbn [formatBits]. destruct (Z.ltb_spec u 10) as [Hlt | Hge].
    + exists 10. split; [lia |]. intros n Hn Hmax.
      apply ParseUint_loop_digit; lia.
    + destruct (IH (u / 10) (String (digit (u mod 10)) acc)) as (p & Hp & Hloop).
      { split; [apply Z.div_pos; lia | apply Z.div_lt_upper_bound; lia]. }
      exists (p * 10). split; [lia |]. intros n Hn Hmax.
      pose proof (Z.div_mod u 10 ltac:(lia)) as Hdm.
      pose proof (Z.mod_pos_bound u 10 ltac:(lia)) as Hmod.
      assert (0 <= u / 10) by (apply Z.div_pos; lia).
      rewrite Hloop by nia.
      rewrite ParseUint_loop_digit by nia.
      f_equal. lia.
Qed.


Lemma formatBits_allDigits fuel :
  forall u acc, 0 <= u -> allDigits acc -> allDigits (formatBits fuel u acc).
Proof.
  induction fuel as [| fuel IH]; intros u acc Hu Hacc; cbn [formatBits]; [done |].
  destruct (Z.ltb_spec u 10).
  - split; [apply digit_is_digit; lia | done].
  - apply IH; [apply Z.div_pos; lia |].
    split; [| done]. apply digit_is_digit, Z.mod_pos_bound. lia.
Qed.

Lemma formatBits_head fuel :
  forall u acc, 0 <= u -> fuel <> O \/ headDigit acc ->
    headDigit (formatBits fuel u acc).
Proof.
  induction fuel as [| fuel IH]; intros u acc Hu Hacc; cbn [formatBits].
  - destruct Hacc; done.
  - destruct (Z.ltb_spec u 10).
    + apply digit_is_digit; lia.
    + apply IH; [apply Z.div_pos; lia |]. right.
      apply digit_is_digit, Z.mod_pos_bound. lia.
Qed.

Lemma ParseUint_formatBits u :
  0 <= u <= maxUint64 ->
  ParseUint (formatBits 20 u "") = (u, None).
Proof.
  intros Hu.
  pose proof (formatBits_head 20 u "" ltac:(lia) ltac:(left; done)) as Hhead.
  destruct (ParseUint_loop_formatBits 20 u "") as (p & Hp & Hloop).
  { unfold maxUint64 in Hu. change (10 ^ Z.of_nat 20) with 100000000000000000000. lia. }
  unfold ParseUint. destruct (formatBits 20 u "") eqn:E; [done |].
  rewrite Hloop by lia. reflexivity.
Qed.

(** [Atoi] reads back what [Itoa] prints. *)
Lemma Atoi_Itoa i : is_int i -> Atoi (Itoa i) = (i, None).
Proof.
  unfold is_int, MinInt, MaxInt, Atoi, Itoa. intros Hi.
  destruct (Z.ltb_spec i 0) as [Hneg | Hpos].
  - unfold ParseInt. change (Ascii.eqb "-" "-") with true.
    change (Ascii.eqb "-" "+") with false. cbn [orb negb andb].
    rewrite ParseUint_formatBits by (unfold maxUint64; lia).
    change (2 ^ 63) with 9223372036854775808.
    destruct (Z.ltb_spec 9223372036854775808 (- i)); [lia |].
    f_equal. lia.
  - pose proof (formatBits_head 20 i "" Hpos ltac:(left; done)) as Hhead.
    pose proof (ParseUint_formatBits i ltac:(unfold maxUint64; lia)) as HP.
    destruct (formatBits 20 i "") as [| c s] eqn:E; [done |].
    cbn in Hhead. unfold ParseInt.
    assert (Ascii.eqb c "-" = false /\ Ascii.eqb c "+" = false) as [-> ->].
    { unfold is_digit in Hhead. apply andb_true_iff in Hhead as [H1 H2].
      split; apply Ascii.eqb_neq; intros ->; vm_compute in H1; discriminate. }
    cbn [orb negb andb]. rewrite HP.
    change (2 ^ 63) with 9223372036854775808.
    destruct (Z.leb_spec 9223372036854775808 i); [lia | reflexivity].
Qed.

Lemma ParseUint_loop_nonneg s : forall n, 0 <= n -> 0 <= (ParseUint_loop s n).1.
Proof.
  induction s as [| c s IH]; intros n Hn; cbn [ParseUint_loop]; [done |].
  destruct (is_digit c) eqn:Hc; [| done].
  destruct (Z.leb _ n); [done |].
  destruct (Z.ltb maxUint64 _); [done |].
  apply IH. pose proof (is_digit_val c Hc). lia.
Qed.

(** Whatever the input, the value [ParseInt] returns is an [int]. *)
Lemma ParseInt_is_int s : is_int (ParseInt s).1.
Proof.
  unfold is_int, MinInt, MaxInt, ParseInt.
  destruct s as [| c s]; [cbn; lia |].
  match goal with |- context [ParseUint ?b] => set (body := b) end.
  assert (0 <= (ParseUint body).1) as Hun.
  { unfold ParseUint. destruct body; [done |]. apply ParseUint_loop_nonneg. lia. }
  destruct (ParseUint body) as [un [[] |]]; cbn [fst] in *; [cbn; lia | |].
  all: change (2 ^ 63) with 9223372036854775808.
  all: destruct (Ascii.eqb c "-"); cbn [negb andb].
  all: repeat (match goal with
               | |- context [Z.leb ?a ?b] => destruct (Z.leb_spec a b)
               | |- context [Z.ltb ?a ?b] => destruct (Z.ltb_spec a b)
               end); cbn [fst]; lia.
Qed.

Lemma Atoi_is_int s : is_int (Atoi s).1.
Proof. apply ParseInt_is_int. Qed.

(** A JSON object is no integer: [Atoi] returns 0 and a syntax error. *)
Lemma Atoi_object rest : Atoi (String "{" rest) = (0, Some ErrSyntax).
Proof. reflexivity. Qed.

End StrconvFacts.

(** ** The concrete [encoding/json] obeys the laws *)

Section GoJSONFacts.
Import strconv GoInt Digits GoJSON Reader.

Lemma append_nil (s : string) : "" +:+ s = s.
Proof. reflexivity. Qed.

Lemma append_cons c (s t : string) : String c s +:+ t = String c (s +:+ t).
Proof. reflexivity. Qed.

Lemma append_assoc (a b c : string) : (a +:+ b) +:+ c = a +:+ (b +:+ c).
Proof.
  induction a as [| x a IH]; [reflexivity |].
  rewrite !append_cons. by f_equal.
Qed.

Lemma unquote_escapeByte c tail :
  unquote (escapeByte c +:+ tail) = cons_to c (unquote tail).
Proof. destruct c as [[] [] [] [] [] [] [] []]; reflexivity. Qed.

(** An escaped string reads back, up to its closing quote. *)
Lemma unquote_escape s rest :
  unquote (escape s +:+ String dq rest) = Some (s, rest).
Proof.
  induction s as [| c s IH]; [reflexivity |].
  cbn [escape]. rewrite append_assoc, unquote_escapeByte, IH. reflexivity.
Qed.


Lemma digitSpan_app ds rest :
  allDigits ds -> noDigitAhead rest -> digitSpan (ds +:+ rest) = (ds, rest).
Proof.
  intros Hds Hrest. induction ds as [| c ds IH].
  - rewrite append_nil. destruct rest as [| c r]; [done |].
    cbn in Hrest. cbn. by rewrite Hrest.
  - destruct Hds as [Hc Hds]. rewrite append_cons. cbn [digitSpan].
    rewrite Hc, (IH Hds). done.
Qed.

Lemma digit_nonzero d : 0 < d < 10 -> Ascii.eqb (digit d) "0" = false.
Proof.
  intros H.
  assert (d = 1 \/ d = 2 \/ d = 3 \/ d = 4 \/ d = 5 \/ d = 6 \/ d = 7
          \/ d = 8 \/ d = 9) as Hd by lia.
  repeat (destruct Hd as [-> | Hd]; [reflexivity |]).
  subst d; reflexivity.
Qed.

Lemma formatBits_leading fuel :
  forall u acc, 0 < u < 10 ^ Z.of_nat fuel ->
    exists c s, formatBits fuel u acc = String c s /\ Ascii.eqb c "0" = false.
Proof.
  induction fuel as [| fuel IH]; intros u acc Hu; [cbn in Hu; lia |].
  rewrite Nat2Z.inj_succ, Z.pow_succ_r in Hu by lia.
  cbn [formatBits]. destruct (Z.ltb_spec u 10).
  - eexists _, _. split; [reflexivity | apply digit_nonzero; lia].
  - apply IH. split; [apply Z.div_str_pos; lia | apply Z.div_lt_upper_bound; lia].
Qed.


Lemma formatBits_wellFormed u :
  0 <= u <= maxUint64 -> wellFormed (formatBits 20 u "") = true.
Proof.
  intros Hu. destruct (decide (u = 0)) as [-> | Hne]; [reflexivity |].
  destruct (formatBits_leading 20 u "") as (c & s & -> & Hc).
  { unfold maxUint64 in Hu. change (10 ^ Z.of_nat 20) with 100000000000000000000. lia. }
  cbn. rewrite Hc. by destruct s.
Qed.

(** An integer printed by [Itoa] reads back as a JSON number. *)
Lemma readInt_Itoa i rest :
  is_int i -> readInt (Itoa i +:+ String "}" rest) = Some (i, String "}" rest).
Proof.
  intros Hi. pose proof (Atoi_Itoa i Hi) as HA.
  unfold is_int, MinInt, MaxInt in Hi. unfold Atoi, Itoa in HA. unfold Itoa.
  destruct (Z.ltb_spec i 0) as [Hneg | Hpos].
  - pose proof (formatBits_allDigits 20 (- i) "" ltac:(lia) I) as Hall.
    pose proof (formatBits_wellFormed (- i) ltac:(unfold maxUint64; lia)) as Hwf.
    unfold readInt. rewrite append_cons. change (Ascii.eqb "-" "-") with true.
    cbv beta iota. rewrite digitSpan_app by done.
    rewrite Hwf, HA. reflexivity.
  - pose proof (formatBits_allDigits 20 i "" Hpos I) as Hall.
    pose proof (formatBits_wellFormed i ltac:(unfold maxUint64; lia)) as Hwf.
    pose proof (formatBits_head 20 i "" Hpos ltac:(left; done)) as Hhead.
    pose proof (digitSpan_app _ (String "}" rest) Hall ltac:(done)) as Hspan.
    destruct (formatBits 20 i "") as [| c s] eqn:E; [done |].
    cbn in Hhead. unfold readInt. rewrite append_cons in *.
    assert (Ascii.eqb c "-" = false) as ->.
    { unfold is_digit in Hhead. apply andb_true_iff in Hhead as [H1 H2].
      apply Ascii.eqb_neq; intros ->; vm_compute in H1; discriminate. }
    cbv beta iota. rewrite Hspan. rewrite Hwf, HA. reflexivity.
Qed.


Lemma Itoa_head i :
  is_int i ->
  exists c s, Itoa i = String c s /\ isSpace c = false /\
    Ascii.eqb c dq = false /\ Ascii.eqb c "-" || is_digit c = true.
Proof.
  intros Hi. unfold Itoa. destruct (Z.ltb_spec i 0) as [Hneg | Hpos].
  - eexists _, _. split; [reflexivity |]. repeat split; reflexivity.
  - pose proof (formatBits_head 20 i "" Hpos ltac:(left; done)) as Hhead.
    destruct (formatBits 20 i "") as [| c s]; [done |]. cbn in Hhead.
    exists c, s. split; [reflexivity |]. rewrite Hhead, orb_true_r.
    clear -Hhead.
    destruct c as [[] [] [] [] [] [] [] []]; try discriminate Hhead;
      repeat split; reflexivity.
Qed.

Lemma readValue_Itoa i rest :
  is_int i ->
  skipSpace (Itoa i +:+ String "}" rest) = Itoa i +:+ String "}" rest /\
  readValue (Itoa i +:+ String "}" rest) = Some (VNumber i, String "}" rest).
Proof.
  intros Hi. pose proof (readInt_Itoa i rest Hi) as HR.
  destruct (Itoa_head i Hi) as (c & s & E & Hsp & Hdq & Hnum).
  rewrite E in *. rewrite append_cons in *. split.
  - cbn [skipSpace]. by rewrite Hsp.
  - unfold readValue. by rewrite Hdq, Hnum, HR.
Qed.

Lemma quoted_app s rest : quoted s +:+ rest = String dq (escape s +:+ String dq rest).
Proof. unfold quoted. by rewrite append_cons, append_assoc, append_cons, append_nil. Qed.

Lemma member_app name v rest :
  member name v +:+ rest = String dq (name +:+ String dq (String ":" (v +:+ rest))).
Proof. unfold member. by rewrite append_cons, append_assoc, !append_cons. Qed.

Lemma readMembers_string fuel name v rest acc :
  plainName name ->
  readMembers (S fuel) (member name (quoted v) +:+ String "," rest) acc
  = readMembers fuel rest (acc ++ [(name, VString v)])%list.
Proof.
  intros Hname. rewrite member_app, quoted_app.
  cbn [readMembers skipSpace]. change (isSpace dq) with false. cbv iota.
  change (Ascii.eqb dq dq) with true. cbv iota.
  rewrite Hname. cbn [skipSpace]. change (isSpace ":") with false. cbv iota.
  change (Ascii.eqb ":" ":") with true. cbv iota.
  cbn [skipSpace]. change (isSpace dq) with false. cbv iota.
  unfold readValue. change (Ascii.eqb dq dq) with true. cbv iota.
  rewrite unquote_escape. cbn [skipSpace]. change (isSpace ",") with false.
  cbv iota. change (Ascii.eqb "," ",") with true. cbv iota. reflexivity.
Qed.

Lemma readMembers_int fuel name i rest acc :
  plainName name -> is_int i ->
  readMembers (S fuel) (member name (Itoa i) +:+ String "}" rest) acc
  = Some ((acc ++ [(name, VNumber i)])%list, rest).
Proof.
  intros Hname Hi. rewrite member_app.
  destruct (readValue_Itoa i rest Hi) as [Hskip Hval].
  cbn [readMembers skipSpace]. change (isSpace dq) with false. cbv iota.
  change (Ascii.eqb dq dq) with true. cbv iota.
  rewrite Hname. cbn [skipSpace]. change (isSpace ":") with false. cbv iota.
  change (Ascii.eqb ":" ":") with true. cbv iota.
  rewrite Hskip, Hval. cbn [skipSpace]. change (isSpace "}") with false.
  cbv iota. change (Ascii.eqb "}" ",") with false.
  change (Ascii.eqb "}" "}") with true. cbv iota. reflexivity.
Qed.

(** A printed [User] reads back. *)
Lemma unmarshalUser_marshalUser u :
  is_int (Balance u) -> unmarshalUser (marshalUser u) = Ok u.
Proof.
  intros Hi. destruct u as [id ty bal]. cbn [Balance] in Hi.
  unfold unmarshalUser, marshalUser, readObject. cbn [ID Type_ Balance].
  rewrite !append_cons, !append_nil.
  cbn [skipSpace]. change (isSpace "{") with false. cbv iota.
  change (Ascii.eqb "{" "{") with true. cbv iota.
  match goal with |- context [readMembers (String.length ?s) ?s] =>
    set (doc := s); set (fuel := String.length doc) end.
  assert (exists k, fuel = S (S (S k))) as [k ->].
  { subst fuel doc. rewrite !member_app. cbn [String.length]. eauto. }
  assert (skipSpace doc = doc /\ exists t, doc = String dq t) as [-> [t Ht]].
  { subst doc. rewrite member_app. split; [reflexivity | eauto]. }
  rewrite Ht. change (Ascii.eqb dq "}") with false. cbv iota. rewrite <- Ht.
  subst doc.
  rewrite readMembers_string by (intros r; reflexivity).
  rewrite readMembers_string by (intros r; reflexivity).
  rewrite readMembers_int by (done || intros r; reflexivity).
  reflexivity.
Qed.


Lemma readInt_is_int s n rest : readInt s = Some (n, rest) -> is_int n.
Proof.
  unfold readInt. destruct (match s with String _ _ => _ | _ => _ end) as [neg s1].
  destruct (digitSpan s1) as [ds r]. destruct (_ && _); [| done].
  pose proof (ParseInt_is_int (if neg then String "-" ds else ds)) as H.
  destruct (ParseInt _) as [m [e |]]; [done |]. intros [= <- _]. exact H.
Qed.

Lemma readValue_inRange s key v rest :
  readValue s = Some (v, rest) -> inRange (key, v).
Proof.
  unfold readValue, inRange. destruct s as [| c s]; [done |].
  destruct (Ascii.eqb c dq).
  { destruct (unquote s) as [[] |]; [| done]. by intros [= <- _]. }
  destruct (_ || _).
  { destruct (readInt _) as [[n r] |] eqn:E; [| done]. intros [= <- _].
    cbn. eapply readInt_is_int, E. }
  repeat (destruct (startsWith _ _)); intros [= <- _]; done.
Qed.

Lemma readMembers_inRange fuel :
  forall s acc ms rest,
    readMembers fuel s acc = Some (ms, rest) ->
    Forall inRange acc -> Forall inRange ms.
Proof.
  induction fuel as [| fuel IH]; intros s acc ms rest; [done |].
  cbn [readMembers]. destruct (skipSpace s) as [| c s1]; [done |].
  destruct (Ascii.eqb c dq); [| done].
  destruct (unquote s1) as [[key s2] |]; [| done].
  destruct (skipSpace s2) as [| c2 s3]; [done |].
  destruct (Ascii.eqb c2 ":"); [| done].
  destruct (readValue _) as [[v s4] |] eqn:Hv; [| done].
  apply (readValue_inRange _ key) in Hv.
  destruct (skipSpace s4) as [| c4 s5]; [done |].
  assert (Forall inRange acc -> Forall inRange (acc ++ [(key, v)])) as Hacc.
  { intros Hacc. apply Forall_app. split; [done | by constructor]. }
  destruct (Ascii.eqb c4 ",").
  { intros Hrec ?. eapply IH; eauto. }
  destruct (Ascii.eqb c4 "}"); [| done].
  intros [= <- _]. exact Hacc.
Qed.

Lemma readObject_inRange b ms : readObject b = Object ms -> Forall inRange ms.
Proof.
  unfold readObject. destruct (skipSpace b) as [| c s1]; [done |].
  destruct (Ascii.eqb c "{"); [| done].
  destruct (skipSpace s1) as [| c1 s2]; [done |].
  destruct (Ascii.eqb c1 "}").
  { destruct (skipSpace s2); [| done]. intros [= <-]. constructor. }
  destruct (readMembers _ _ _) as [[ms' rest] |] eqn:E; [| done].
  destruct (skipSpace rest); [| done]. intros [= <-].
  eapply readMembers_inRange; [exact E | constructor].
Qed.

Lemma userMember_is_int m u u' :
  inRange m -> is_int (Balance u) ->
  userMember (Some u) m = Some u' -> is_int (Balance u').
Proof.
  destruct m as [key v]. unfold inRange, userMember. cbn [snd].
  intros Hv Hu.
  repeat (destruct (names key _));
    try (destruct v; cbn; intros [= <-]; done).
Qed.

Lemma fold_userMember_is_int ms :
  forall acc u,
    Forall inRange ms ->
    (forall u0, acc = Some u0 -> is_int (Balance u0)) ->
    fold_left userMember ms acc = Some u -> is_int (Balance u).
Proof.
  induction ms as [| m ms IH]; intros acc u Hms Hacc; cbn [fold_left].
  - intros ->. by apply Hacc.
  - inversion Hms as [| ? ? Hm Hms']; subst. apply IH; [done |].
    intros u1 Hu1. destruct acc as [u0 |]; [| done].
    eapply userMember_is_int; eauto.
Qed.

(** The balance of a decoded [User] is an [int]. *)
Lemma unmarshalUser_is_int b u : unmarshalUser b = Ok u -> is_int (Balance u).
Proof.
  unfold unmarshalUser. destruct (readObject b) as [| | ms] eqn:E; [done | done |].
  destruct (fold_left _ _ _) as [u' |] eqn:F; [| done]. intros [= <-].
  eapply fold_userMember_is_int; [eapply readObject_inRange, E | | exact F].
  intros u0 [= <-]. cbn. unfold is_int, MinInt, MaxInt. lia.
Qed.

(** The members of a printed [Transaction]. *)
Lemma readObject_marshalTransaction t :
  is_int (TxValue t) ->
  readObject (marshalTransaction t)
  = Object [("TXID", VString (TXID t)); ("from", VString (TxFrom t));
            ("to", VString (TxTo t)); ("value", VNumber (TxValue t))].
Proof.
  intros Hi. destruct t as [id from to value]. cbn [TxValue] in Hi.
  unfold marshalTransaction, readObject. cbn [TXID TxFrom TxTo TxValue].
  rewrite !append_cons, !append_nil.
  cbn [skipSpace]. change (isSpace "{") with false. cbv iota.
  change (Ascii.eqb "{" "{") with true. cbv iota.
  match goal with |- context [readMembers (String.length ?s) ?s] =>
    set (doc := s); set (fuel := String.length doc) end.
  assert (exists k, fuel = S (S (S (S k)))) as [k ->].
  { subst fuel doc. rewrite !member_app. cbn [String.length]. eauto. }
  assert (skipSpace doc = doc /\ exists r, doc = String dq r) as [-> [r Hr]].
  { subst doc. rewrite member_app. split; [reflexivity | eauto]. }
  rewrite Hr. change (Ascii.eqb dq "}") with false. cbv iota. rewrite <- Hr.
  subst doc.
  do 3 rewrite readMembers_string by (intros r'; reflexivity).
  rewrite readMembers_int by (done || intros r'; reflexivity).
  reflexivity.
Qed.

Lemma unmarshalTransaction_marshalTransaction t :
  is_int (TxValue t) -> unmarshalTransaction (marshalTransaction t) = Ok t.
Proof.
  intros Hi. unfold unmarshalTransaction.
  rewrite readObject_marshalTransaction by done. by destruct t.
Qed.

Lemma unmarshalUser_marshalTransaction t :
  is_int (TxValue t) ->
  unmarshalUser (marshalTransaction t) = Ok (mkUser "" "" 0).
Proof.
  intros Hi. unfold unmarshalUser.
  rewrite readObject_marshalTransaction by done. reflexivity.
Qed.

Lemma goJSON_laws : JSONLaws goJSON.
Proof.
  split.
  - eexists. reflexivity.
  - apply unmarshalUser_is_int.
  - intros u Hu. exists u. split; [by apply unmarshalUser_marshalUser | done].
  - intros u. eexists. reflexivity.
  - eexists. reflexivity.
  - intros t u Hi. cbn [UnmarshalUser MarshalTransaction goJSON].
    rewrite unmarshalUser_marshalTransaction by done. by intros [= <-].
Qed.

End GoJSONFacts.

(** ** Running the contracts on the stub *)

Ltac step :=
  cbv beta iota;
  cbn [host txid world rset wset events getError putError eventError fst snd].

Ltac run_stub :=
  unfold bind, orReturn, fail, ret, shim.GetState, shim.PutState,
    shim.SetEvent, shim.GetTxID; step.

Ltac nope := let H := fresh in intros H; discriminate H.

Ltac branch :=
  match goal with
  | |- context [match getError ?h ?k with _ => _ end] =>
      destruct (getError h k) eqn:?
  | |- context [match putError ?h ?k with _ => _ end] =>
      destruct (putError h k) eqn:?
  | |- context [match eventError ?h with _ => _ end] =>
      destruct (eventError h) eqn:?
  | |- context [match UnmarshalUser ?b with _ => _ end] =>
      destruct (UnmarshalUser b) eqn:?
  | |- context [match UnmarshalTransaction ?b with _ => _ end] =>
      destruct (UnmarshalTransaction b) eqn:?
  | |- context [if Z.ltb ?a ?b then _ else _] => destruct (Z.ltb_spec a b)
  | |- context [if String.eqb ?a ?b then _ else _] =>
      destruct (String.eqb_spec a b)
  end.

Ltac crunch := run_stub; repeat (branch; step; try nope).

Section HostFacts.

Lemma commit_nil (w : gmap string string) : commit w [] = w.
Proof. reflexivity. Qed.

Lemma commit_two (w : gmap string string) k1 v1 k2 v2 :
  commit w [(k1, v1); (k2, v2)] = <[k2 := v2]> (<[k1 := v1]> w).
Proof. reflexivity. Qed.

(** What the host does with the outcome of an invocation. *)
Lemma invoke_ok {A} h tx (m : M A) w a w' evs :
  invoke h tx m w = (Ok a, w', evs) ->
  exists st, m (begin h tx w) = (Ok a, st) /\
             w' = commit w (wset st) /\ evs = events st.
Proof.
  unfold invoke. destruct (m (begin h tx w)) as [[a' | msg] st]; [| nope].
  intros [= -> <- <-]. eauto.
Qed.

Lemma invoke_err {A} h tx (m : M A) w msg w' evs :
  invoke h tx m w = (Err msg, w', evs) -> w' = w /\ evs = [].
Proof.
  unfold invoke. destruct (m (begin h tx w)) as [[a' | msg'] st]; [nope |].
  by intros [= _ <- <-].
Qed.

Lemma invoke_run {A} h tx (m : M A) w a st :
  m (begin h tx w) = (Ok a, st) ->
  invoke h tx m w = (Ok a, commit w (wset st), events st).
Proof. unfold invoke. by intros ->. Qed.

End HostFacts.

Section CompactFacts.
Context {J : JSON}.
Import strconv GoInt.

(** When [transferHelper] succeeds, all its checks passed and it staged
    the two balances computed from what it read. *)
Lemma Compact_transferHelper_ok from to value st st' :
  Compact.transferHelper from to value st = (Ok tt, st') ->
  from <> to /\ 0 <= value /\
  getError (host st) from = None /\ getError (host st) to = None /\
  putError (host st) from = None /\ putError (host st) to = None /\
  exists b, world st !! from = Some b /\ value <= (Atoi b).1 /\
    st' = mkStub (host st) (txid st) (world st)
            ((rset st ++ [from]) ++ [to])
            ((wset st ++ [(from, Itoa (sub (Atoi b).1 value))]) ++
               [(to, Itoa (add (Compact.stored (world st) to) value))])
            (events st).
Proof.
  unfold Compact.transferHelper, Compact.stored. crunch.
  destruct (world st !! from) as [b |] eqn:Hb; step; [| nope].
  crunch. intros [= <-]. repeat (split; [done |]). exists b. done.
Qed.

Lemma Compact_TransferFrom_ok from to value st st' :
  Compact.TransferFrom from to value st = (Ok tt, st') ->
  from <> to /\ 0 <= value /\
  exists b, world st !! from = Some b /\ value <= (Atoi b).1 /\
    st' = mkStub (host st) (txid st) (world st)
            ((rset st ++ [from]) ++ [to])
            ((wset st ++ [(from, Itoa (sub (Atoi b).1 value))]) ++
               [(to, Itoa (add (Compact.stored (world st) to) value))])
            (events st ++
               [("Transfer", MarshalEvent (mkEvent from to value))]).
Proof.
  unfold Compact.TransferFrom, Compact.SetEvent. run_stub.
  destruct (Compact.transferHelper from to value st) as [[[] | msg] st1] eqn:Hh;
    step; [| nope].
  apply Compact_transferHelper_ok in Hh
    as (Hne & Hv & _ & _ & _ & _ & b & Hb & Hle & ->).
  crunch. intros [= <-]. eauto 10.
Qed.

(** Conversely, when the checks pass and the host refuses nothing,
    [TransferFrom] succeeds. *)
Lemma Compact_TransferFrom_run from to value st b :
  from <> to -> 0 <= value ->
  getError (host st) from = None -> getError (host st) to = None ->
  putError (host st) from = None -> putError (host st) to = None ->
  eventError (host st) = None ->
  world st !! from = Some b -> value <= (Atoi b).1 ->
  Compact.TransferFrom from to value st =
    (Ok tt, mkStub (host st) (txid st) (world st)
            ((rset st ++ [from]) ++ [to])
            ((wset st ++ [(from, Itoa (sub (Atoi b).1 value))]) ++
               [(to, Itoa (add (Compact.stored (world st) to) value))])
            (events st ++
               [("Transfer", MarshalEvent (mkEvent from to value))])).
Proof.
  intros Hne Hv Hgf Hgt Hpf Hpt He Hb Hle.
  unfold Compact.TransferFrom, Compact.SetEvent, Compact.transferHelper,
    Compact.stored.
  run_stub. destruct (String.eqb_spec from to); [done |].
  destruct (Z.ltb_spec value 0); [lia |]. step.
  rewrite Hgf, Hb. step. destruct (Z.ltb_spec (Atoi b).1 value); [lia |].
  step. rewrite Hgt. step. rewrite Hpf. step. rewrite Hpt. step.
  rewrite He. done.
Qed.

(** No call alters the world state the stub reads. *)
Lemma Compact_TransferFrom_world from to value st :
  world (Compact.TransferFrom from to value st).2 = world st.
Proof.
  unfold Compact.TransferFrom, Compact.SetEvent, Compact.transferHelper.
  crunch; try reflexivity.
  destruct (world st !! from) as [b |]; step; [| reflexivity].
  crunch; reflexivity.
Qed.

End CompactFacts.

Section RichFacts.
Context {J : JSON}.
Import strconv GoInt.

Lemma Rich_GetUser_eq id st :
  Rich.GetUser id st =
    let st' := mkStub (host st) (txid st) (world st) (rset st ++ [id])
                      (wset st) (events st) in
    match getError (host st) id with
    | Some msg => (Err ("failed to read from world state: " +:+ msg), st')
    | None =>
        match UnmarshalUser (bytesOf (world st !! id)) with
        | Ok user => (Ok user, st')
        | Err msg => (Err msg, st')
        end
    end.
Proof. unfold Rich.GetUser. crunch; reflexivity. Qed.

(** When [transferHelper] succeeds, both records decoded, the funds
    sufficed, and it staged the two updated records. *)
Lemma Rich_transferHelper_ok from to value st st' :
  Rich.transferHelper from to value st = (Ok tt, st') ->
  from <> to /\ 0 <= value /\
  exists fu tu,
    UnmarshalUser (bytesOf (world st !! from)) = Ok fu /\
    UnmarshalUser (bytesOf (world st !! to)) = Ok tu /\
    value <= Balance fu /\
    st' = mkStub (host st) (txid st) (world st)
            ((rset st ++ [from]) ++ [to])
            ((wset st ++ [(from, MarshalUser (debit fu value))]) ++
               [(to, MarshalUser (credit tu value))])
            (events st).
Proof.
  unfold Rich.transferHelper, Rich.GetUser. crunch.
  intros [= <-]. eauto 10.
Qed.

Lemma Rich_TransferFrom_ok from to value st st' :
  Rich.TransferFrom from to value st = (Ok tt, st') ->
  from <> to /\ 0 <= value /\
  exists fu tu,
    UnmarshalUser (bytesOf (world st !! from)) = Ok fu /\
    UnmarshalUser (bytesOf (world st !! to)) = Ok tu /\
    value <= Balance fu /\
    st' = mkStub (host st) (txid st) (world st)
            ((rset st ++ [from]) ++ [to])
            ((wset st ++ [(from, MarshalUser (debit fu value))]) ++
               [(to, MarshalUser (credit tu value))])
            (events st ++
               [("Transfer", MarshalEvent (mkEvent from to value))]).
Proof.
  unfold Rich.TransferFrom, Rich.SetEvent. run_stub.
  destruct (Rich.transferHelper from to value st) as [[[] | msg] st1] eqn:Hh;
    step; [| nope].
  apply Rich_transferHelper_ok in Hh
    as (Hne & Hv & fu & tu & Hfu & Htu & Hle & ->).
  crunch. intros [= <-]. eauto 10.
Qed.

Lemma Rich_TransferFrom_run from to value st fu tu :
  from <> to -> 0 <= value ->
  getError (host st) from = None -> getError (host st) to = None ->
  putError (host st) from = None -> putError (host st) to = None ->
  eventError (host st) = None ->
  UnmarshalUser (bytesOf (world st !! from)) = Ok fu ->
  UnmarshalUser (bytesOf (world st !! to)) = Ok tu ->
  value <= Balance fu ->
  Rich.TransferFrom from to value st =
    (Ok tt, mkStub (host st) (txid st) (world st)
            ((rset st ++ [from]) ++ [to])
            ((wset st ++ [(from, MarshalUser (debit fu value))]) ++
               [(to, MarshalUser (credit tu value))])
            (events st ++
               [("Transfer", MarshalEvent (mkEvent from to value))])).
Proof.
  intros Hne Hv Hgf Hgt Hpf Hpt He Hfu Htu Hle.
  unfold Rich.TransferFrom, Rich.SetEvent, Rich.transferHelper, Rich.GetUser.
  run_stub. destruct (String.eqb_spec from to); [done |].
  destruct (Z.ltb_spec value 0); [lia |]. step.
  rewrite Hgf, Hfu. step. rewrite Hgt, Htu. step.
  destruct (Z.ltb_spec (Balance fu) value); [lia |].
  step. rewrite Hpf. step. rewrite Hpt. step.
  rewrite He. done.
Qed.

Lemma Rich_TransferFrom_world from to value st :
  world (Rich.TransferFrom from to value st).2 = world st.
Proof.
  unfold Rich.TransferFrom, Rich.SetEvent, Rich.transferHelper, Rich.GetUser.
  crunch; reflexivity.
Qed.

End RichFacts.

(** ** What the entry points observe and stage *)

Ltac staged_prefix :=
  first
    [ exists []; rewrite app_nil_r; by auto
    | eexists [_]; split; [reflexivity | by eauto]
    | eexists [_; _]; rewrite <- app_assoc; split; [reflexivity | by eauto 6] ].

Section Observations.
Context {J : JSON}.
Import strconv GoInt.

(** [BalanceOf] is the same function in the two files. *)
Lemma Compact_BalanceOf_Rich id st : Compact.BalanceOf id st = Rich.BalanceOf id st.
Proof.
  unfold Compact.BalanceOf, Rich.BalanceOf, Compact.GetUser, Rich.GetUser.
  crunch; reflexivity.
Qed.

(** [Rich.stored] is what [BalanceOf] answers when the host lets it read. *)
Lemma Rich_BalanceOf_stored h tx id (w : gmap string string) :
  getError h id = None ->
  invoke h tx (Rich.BalanceOf id) w
  = (match Rich.stored w id with
     | Some b => Ok b
     | None => Err ("user id " +:+ id +:+ " does not exist")
     end, w, []).
Proof.
  intros Hg. unfold invoke, Rich.BalanceOf, Rich.GetUser, Rich.stored, begin.
  run_stub. rewrite Hg. step.
  destruct (UnmarshalUser (bytesOf (w !! id))); reflexivity.
Qed.

(** A [TransferFrom] that fails has staged a prefix of the two balance
    writes and set no event: the contract itself undoes nothing. *)
Lemma Compact_TransferFrom_failure from to value st msg st' :
  Compact.TransferFrom from to value st = (Err msg, st') ->
  events st' = events st
  /\ exists l, wset st' = (wset st ++ l)%list
       /\ (l = [] \/ (exists v, l = [(from, v)])
           \/ exists v1 v2, l = [(from, v1); (to, v2)]).
Proof.
  unfold Compact.TransferFrom, Compact.SetEvent, Compact.transferHelper.
  crunch; try (intros [= _ <-]; split; [done | staged_prefix]).
  destruct (world st !! from) as [b |]; step;
    [| intros [= _ <-]; split; [done | staged_prefix]].
  crunch; intros [= _ <-]; (split; [done |]); cbn [wset]; staged_prefix.
Qed.

Lemma Rich_TransferFrom_failure from to value st msg st' :
  Rich.TransferFrom from to value st = (Err msg, st') ->
  events st' = events st
  /\ exists l, wset st' = (wset st ++ l)%list
       /\ (l = [] \/ (exists v, l = [(from, v)])
           \/ exists v1 v2, l = [(from, v1); (to, v2)]).
Proof.
  unfold Rich.TransferFrom, Rich.SetEvent, Rich.transferHelper, Rich.GetUser.
  crunch; intros [= _ <-]; (split; [done |]); cbn [wset]; staged_prefix.
Qed.

(** In the second file bytes that do not decode make [BalanceOf] fail, and
    [TransferFrom] too, on whichever side the key is. *)
Lemma Rich_decode_error_reported h tx id other value (w : gmap string string) msg :
  UnmarshalUser (bytesOf (w !! id)) = Err msg ->
  is_ok (invoke h tx (Rich.BalanceOf id) w).1.1 = false
  /\ is_ok (invoke h tx (Rich.TransferFrom id other value) w).1.1 = false
  /\ is_ok (invoke h tx (Rich.TransferFrom other id value) w).1.1 = false.
Proof.
  intros Hid. unfold invoke, begin.
  unfold Rich.BalanceOf, Rich.TransferFrom, Rich.SetEvent, Rich.transferHelper,
    Rich.GetUser.
  repeat split; crunch; try reflexivity; congruence.
Qed.

(** [transferHelper] of [token_contract.go] takes a stored [User] record
    for the balance 0, whatever the record says. *)
Lemma Compact_record_read_as_zero (HJ : JSONLaws J) from to value u st :
  from <> to -> 0 < value -> getError (host st) from = None ->
  world st !! from = Some (MarshalUser u) ->
  (Compact.TransferFrom from to value st).1
  = Err ("failed to transfer: client account " +:+ from +:+
         " has insufficient funds").
Proof.
  intros Hne Hv Hg Hu.
  unfold Compact.TransferFrom, Compact.transferHelper. run_stub.
  destruct (String.eqb_spec from to); [done |].
  destruct (Z.ltb_spec value 0); [lia |]. step. rewrite Hg, Hu. step.
  destruct (marshal_user_object J HJ u) as [rest ->]. rewrite Atoi_object.
  cbn [fst]. destruct (Z.ltb_spec 0 value); [done | lia].
Qed.

End Observations.

(** ** Balances in the committed world state *)

Section Balances.
Context {J : JSON}.
Import strconv GoInt.

Lemma wrap_id z : is_int z -> wrap z = z.
Proof.
  unfold is_int, MinInt, MaxInt, wrap. intros H.
  change (2 ^ 63) with 9223372036854775808.
  change (2 ^ 64) with 18446744073709551616.
  rewrite Z.mod_small; lia.
Qed.

Lemma is_int_wrap z : is_int (wrap z).
Proof.
  unfold is_int, MinInt, MaxInt, wrap.
  change (2 ^ 63) with 9223372036854775808.
  change (2 ^ 64) with 18446744073709551616.
  pose proof (Z.mod_pos_bound (z + 9223372036854775808) 18446744073709551616
                ltac:(lia)).
  lia.
Qed.

(** Wrapping an addend first makes no difference to the wrapped sum. *)
Lemma wrap_add_wrap a b : wrap (a + wrap b) = wrap (a + b).
Proof.
  unfold wrap.
  replace (a + ((b + 2 ^ 63) mod 2 ^ 64 - 2 ^ 63) + 2 ^ 63)
    with (a + (b + 2 ^ 63) mod 2 ^ 64) by lia.
  rewrite Zplus_mod_idemp_r. f_equal. f_equal. lia.
Qed.

Lemma Compact_stored_insert (w : gmap string string) k v id :
  Compact.stored (<[k := v]> w) id
  = if decide (k = id) then (Atoi v).1 else Compact.stored w id.
Proof.
  unfold Compact.stored. rewrite lookup_insert.
  destruct (decide (k = id)); reflexivity.
Qed.

Lemma Rich_stored_insert (w : gmap string string) k v id :
  Rich.stored (<[k := v]> w) id
  = if decide (k = id)
    then match UnmarshalUser v with
         | Ok user => Some (Balance user)
         | Err _ => None
         end
    else Rich.stored w id.
Proof.
  unfold Rich.stored. rewrite lookup_insert.
  destruct (decide (k = id)); reflexivity.
Qed.

Lemma Rich_stored_marshal (HJ : JSONLaws J) u :
  is_int (Balance u) ->
  match UnmarshalUser (MarshalUser u) with
  | Ok user => Some (Balance user)
  | Err _ => None
  end = Some (Balance u).
Proof.
  intros Hu. destruct (marshal_user_balance J HJ u Hu) as (u' & -> & ->). done.
Qed.

(** Committing writes of non-negative balances keeps the invariant. *)
Lemma Compact_nonneg_commit ws :
  forall w, Compact.nonneg w ->
    Forall (fun kv => 0 <= (Atoi kv.2).1) ws ->
    Compact.nonneg (commit w ws).
Proof.
  induction ws as [| [k v] ws IH]; intros w Hw Hws; [done |].
  inversion Hws as [| ? ? Hv Hws']; subst. apply IH; [| done].
  intros id. cbn [fst snd]. rewrite Compact_stored_insert.
  destruct (decide (k = id)); [done | apply Hw].
Qed.

Lemma Rich_nonneg_commit ws :
  forall w, Rich.nonneg w ->
    Forall (fun kv => forall u, UnmarshalUser kv.2 = Ok u -> 0 <= Balance u) ws ->
    Rich.nonneg (commit w ws).
Proof.
  induction ws as [| [k v] ws IH]; intros w Hw Hws; [done |].
  inversion Hws as [| ? ? Hv Hws']; subst. apply IH; [| done].
  intros id b. cbn [fst snd]. rewrite Rich_stored_insert.
  destruct (decide (k = id)); [| apply Hw].
  cbn [snd] in Hv. destruct (UnmarshalUser v) as [u |]; [| done].
  intros [= <-]. by apply Hv.
Qed.

End Balances.

Section Conservation.
Import strconv GoInt.

(** C1 (amended).  A [TransferFrom] that succeeds keeps the sum of the two
    stored balances whenever the recipient's balance plus the amount does
    not exceed the largest [int]; in every case the two sums agree in the
    wrap-around arithmetic of [int].  This holds in both files. *)
Theorem conservation (J : JSON) (HJ : JSONLaws J) (h : Host)
    (tx from to : string) (value : Z) (w w' : gmap string string)
    (evs : list (string * string)) :
  is_int value ->
  (invoke h tx (Compact.TransferFrom from to value) w = (Ok tt, w', evs) ->
   (Compact.stored w to + value <= MaxInt ->
    Compact.stored w' from + Compact.stored w' to
    = Compact.stored w from + Compact.stored w to)
   /\ wrap (Compact.stored w' from + Compact.stored w' to)
      = wrap (Compact.stored w from + Compact.stored w to))
  /\ (invoke h tx (Rich.TransferFrom from to value) w = (Ok tt, w', evs) ->
      exists f t f' t',
        Rich.stored w from = Some f /\ Rich.stored w to = Some t /\
        Rich.stored w' from = Some f' /\ Rich.stored w' to = Some t' /\
        (t + value <= MaxInt -> f' + t' = f + t) /\
        wrap (f' + t') = wrap (f + t)).
Proof.
  intros Hvalue. split; intros Hrun.
  - apply invoke_ok in Hrun as (st & Hst & -> & _).
    apply Compact_TransferFrom_ok in Hst as (Hne & Hv & b & Hb & Hle & ->).
    cbn [begin world wset app] in *. rewrite commit_two.
    rewrite !Compact_stored_insert.
    rewrite (decide_True (P := to = to)) by done.
    rewrite (decide_False (P := to = from)) by done.
    rewrite (decide_True (P := from = from)) by done.
    rewrite !Atoi_Itoa by apply is_int_wrap. cbn [fst].
    assert (Compact.stored w from = (Atoi b).1) as Hf
      by (unfold Compact.stored; by rewrite Hb).
    rewrite Hf.
    pose proof (Atoi_is_int b) as Hfi.
    assert (is_int (Compact.stored w to)) as Hti.
    { unfold Compact.stored. destruct (w !! to); [apply Atoi_is_int |].
      unfold is_int, MinInt, MaxInt. lia. }
    assert (sub (Atoi b).1 value = (Atoi b).1 - value) as ->.
    { apply wrap_id. unfold is_int, MinInt, MaxInt in *. lia. }
    unfold add. split.
    + intros Hfit. rewrite wrap_id; [lia |].
      unfold is_int, MinInt, MaxInt in *. lia.
    + rewrite wrap_add_wrap. f_equal. lia.
  - apply invoke_ok in Hrun as (st & Hst & -> & _).
    apply Rich_TransferFrom_ok in Hst
      as (Hne & Hv & fu & tu & Hfu & Htu & Hle & ->).
    cbn [begin world wset app] in *. rewrite commit_two.
    exists (Balance fu), (Balance tu), (sub (Balance fu) value),
      (add (Balance tu) value).
    unfold Rich.stored at 1 2. rewrite Hfu, Htu.
    rewrite !Rich_stored_insert.
    rewrite (decide_True (P := to = to)) by done.
    rewrite (decide_False (P := to = from)) by done.
    rewrite (decide_True (P := from = from)) by done.
    rewrite !Rich_stored_marshal by (done || apply is_int_wrap).
    cbn [debit credit Balance].
    pose proof (unmarshal_user_int J HJ _ _ Hfu) as Hfi.
    pose proof (unmarshal_user_int J HJ _ _ Htu) as Hti.
    assert (sub (Balance fu) value = Balance fu - value) as ->.
    { apply wrap_id. unfold is_int, MinInt, MaxInt in *. lia. }
    unfold add. repeat split.
    + intros Hfit. rewrite wrap_id; [lia |].
      unfold is_int, MinInt, MaxInt in *. lia.
    + rewrite wrap_add_wrap. f_equal. lia.
Qed.

End Conservation.

Section Invariant.
Import strconv GoInt.

(** A successful call stages non-negative balances only. *)
Lemma Compact_call_wset (J : JSON) (HJ : JSONLaws J) h tx c w st :
  Compact.call c (begin h tx w) = (Ok tt, st) ->
  Compact.nonneg w -> Compact.fits c w ->
  Forall (fun kv => 0 <= (Atoi kv.2).1) (wset st).
Proof.
  destruct c as [| id | from to value | id | txid]; cbn [Compact.call Compact.fits].
  - unfold Compact.InitLedger, Compact.assets. cbn [Compact.putAssets ID].
    crunch. intros [= <-] _ _. cbn [wset app].
    repeat constructor; cbn [snd].
    all: match goal with |- context [MarshalUser ?u] =>
           destruct (marshal_user_object J HJ u) as [rest ->] end.
    all: by rewrite Atoi_object.
  - unfold Compact.BalanceOf, Compact.GetUser. crunch.
    intros [= <-] _ _. constructor.
  - intros Hrun Hw [Hvalue Hfit].
    apply Compact_TransferFrom_ok in Hrun as (Hne & Hv & b & Hb & Hle & ->).
    cbn [begin world wset app] in *.
    pose proof (Hw to) as Ht.
    assert (is_int (Compact.stored w to)) as Hti.
    { unfold Compact.stored. destruct (w !! to); [apply Atoi_is_int |].
      unfold is_int, MinInt, MaxInt. lia. }
    pose proof (Atoi_is_int b) as Hfi.
    repeat constructor; cbn [snd]; rewrite Atoi_Itoa by apply is_int_wrap;
      cbn [fst]; unfold sub, add; rewrite wrap_id;
      unfold is_int, MinInt, MaxInt in *; lia.
  - unfold Compact.UserExist. crunch. intros [= <-] _ _. constructor.
  - unfold Compact.GetTransaction. crunch. intros [= <-] _ _. constructor.
Qed.

Lemma Rich_call_wset (J : JSON) (HJ : JSONLaws J) h tx c w st :
  Rich.call c (begin h tx w) = (Ok tt, st) ->
  Rich.nonneg w -> Rich.fits c w ->
  Forall (fun kv => forall u, UnmarshalUser kv.2 = Ok u -> 0 <= Balance u)
         (wset st).
Proof.
  assert (forall u, is_int (Balance u) -> 0 <= Balance u ->
            forall u', UnmarshalUser (MarshalUser u) = Ok u' -> 0 <= Balance u')
    as Hback.
  { intros u Hi Hu u' Hu'.
    destruct (marshal_user_balance J HJ u Hi) as (u2 & E & Hb).
    rewrite E in Hu'. injection Hu' as <-. lia. }
  destruct c as [| id | from to value | name e | id | id | txid | from to value];
    cbn [Rich.call Rich.fits].
  - unfold Rich.InitLedger, Rich.assets. cbn [Rich.putAssets ID].
    crunch. intros [= <-] _ _. cbn [wset app].
    repeat constructor; cbn [snd]; apply Hback; cbn [Balance];
      unfold is_int, MinInt, MaxInt; lia.
  - unfold Rich.BalanceOf, Rich.GetUser. crunch.
    intros [= <-] _ _. constructor.
  - intros Hrun Hw [Hvalue Hfit].
    apply Rich_TransferFrom_ok in Hrun
      as (Hne & Hv & fu & tu & Hfu & Htu & Hle & ->).
    cbn [begin world wset app] in *.
    pose proof (unmarshal_user_int J HJ _ _ Hfu) as Hfi.
    pose proof (unmarshal_user_int J HJ _ _ Htu) as Hti.
    assert (Rich.stored w to = Some (Balance tu)) as Hto
      by (unfold Rich.stored; by rewrite Htu).
    pose proof (Hw _ _ Hto) as Ht. pose proof (Hfit _ Hto) as Hfit'.
    repeat constructor; cbn [snd]; apply Hback; cbn [debit credit Balance];
      try apply is_int_wrap; unfold sub, add; rewrite wrap_id;
      unfold is_int, MinInt, MaxInt in *; lia.
  - unfold Rich.SetEvent. crunch. intros [= <-] _ _. constructor.
  - unfold Rich.GetUser. crunch. intros [= <-] _ _. constructor.
  - unfold Rich.UserExist. crunch. intros [= <-] _ _. constructor.
  - unfold Rich.GetTransaction. crunch. intros [= <-] _ _. constructor.
  - unfold Rich.SetTransaction. crunch. intros [= <-] _ Hvalue.
    cbn [wset app]. repeat constructor; cbn [snd].
    intros u. by apply (transaction_as_user J HJ).
Qed.

(** C2 (amended).  Let every stored balance be non-negative.  Whatever a
    call of the contract leaves committed keeps every stored balance
    non-negative, provided that for [TransferFrom] the amount is an [int]
    and the recipient's balance plus the amount does not exceed the largest
    [int].  This holds in both files, for every exported method. *)
Theorem nonneg_preserved (J : JSON) (HJ : JSONLaws J) (h : Host) (tx : string)
    (w : gmap string string) :
  (forall c, Compact.nonneg w -> Compact.fits c w ->
             Compact.nonneg (Compact.next h tx c w))
  /\ (forall c, Rich.nonneg w -> Rich.fits c w ->
                Rich.nonneg (Rich.next h tx c w)).
Proof.
  split; intros c Hw Hfit.
  - unfold Compact.next, invoke.
    destruct (Compact.call c (begin h tx w)) as [[[] | msg] st] eqn:Hrun;
      cbn [fst snd]; [| done].
    apply Compact_nonneg_commit; [done |].
    eapply Compact_call_wset; eauto.
  - unfold Rich.next, invoke.
    destruct (Rich.call c (begin h tx w)) as [[[] | msg] st] eqn:Hrun;
      cbn [fst snd]; [| done].
    apply Rich_nonneg_commit; [done |].
    eapply Rich_call_wset; eauto.
Qed.

End Invariant.

Section ZeroAndRecords.
Import strconv GoInt.

(** C6 (amended).  Let [A <> B], let the host take the two reads, the two
    writes and the event, and let [A] be stored with a non-negative balance
    (in the second file let [B] be stored too).  Then [TransferFrom(A, B, 0)]
    succeeds, every stored balance is afterwards what it was, and exactly
    the Transfer event for [(A, B, 0)] is emitted. *)
Theorem zero_transfer (J : JSON) (HJ : JSONLaws J) (h : Host) (tx A B : string)
    (w : gmap string string) :
  A <> B ->
  getError h A = None -> getError h B = None ->
  putError h A = None -> putError h B = None -> eventError h = None ->
  (forall b, w !! A = Some b -> 0 <= (Atoi b).1 ->
     exists w',
       invoke h tx (Compact.TransferFrom A B 0) w
         = (Ok tt, w', [("Transfer", MarshalEvent (mkEvent A B 0))])
       /\ forall id, Compact.stored w' id = Compact.stored w id)
  /\ (forall a b, Rich.stored w A = Some a -> 0 <= a -> Rich.stored w B = Some b ->
       exists w',
         invoke h tx (Rich.TransferFrom A B 0) w
           = (Ok tt, w', [("Transfer", MarshalEvent (mkEvent A B 0))])
         /\ forall id, Rich.stored w' id = Rich.stored w id).
Proof.
  intros Hne HgA HgB HpA HpB He. split.
  - intros b Hb Hpos.
    pose proof (Compact_TransferFrom_run A B 0 (begin h tx w) b Hne
                  ltac:(lia) HgA HgB HpA HpB He Hb Hpos) as Hrun.
    apply invoke_run in Hrun. cbn [begin wset events world app] in Hrun.
    eexists. split; [exact Hrun |]. intros id. rewrite commit_two.
    assert (Compact.stored w A = (Atoi b).1) as HA
      by (unfold Compact.stored; by rewrite Hb).
    assert (is_int (Compact.stored w B)) as HBi.
    { unfold Compact.stored. destruct (w !! B); [apply Atoi_is_int |].
      unfold is_int, MinInt, MaxInt. lia. }
    pose proof (Atoi_is_int b) as HAi.
    rewrite !Compact_stored_insert, !Atoi_Itoa by apply is_int_wrap.
    cbn [fst]. unfold sub, add. rewrite Z.sub_0_r, Z.add_0_r, !wrap_id by done.
    destruct (decide (B = id)) as [<- |]; [done |].
    destruct (decide (A = id)) as [<- |]; done.
  - intros a b HA Hpos HB.
    unfold Rich.stored in HA, HB.
    destruct (UnmarshalUser (bytesOf (w !! A))) as [fu |] eqn:Hfu; [| done].
    destruct (UnmarshalUser (bytesOf (w !! B))) as [tu |] eqn:Htu; [| done].
    injection HA as <-. injection HB as <-.
    pose proof (Rich_TransferFrom_run A B 0 (begin h tx w) fu tu Hne
                  ltac:(lia) HgA HgB HpA HpB He Hfu Htu Hpos) as Hrun.
    apply invoke_run in Hrun. cbn [begin wset events world app] in Hrun.
    eexists. split; [exact Hrun |]. intros id. rewrite commit_two.
    pose proof (unmarshal_user_int J HJ _ _ Hfu) as Hfi.
    pose proof (unmarshal_user_int J HJ _ _ Htu) as Hti.
    rewrite !Rich_stored_insert.
    rewrite !Rich_stored_marshal by (done || apply is_int_wrap).
    cbn [debit credit Balance]. unfold sub, add.
    rewrite Z.sub_0_r, Z.add_0_r, !wrap_id by done.
    unfold Rich.stored.
    destruct (decide (B = id)) as [<- |]; [by rewrite Htu |].
    destruct (decide (A = id)) as [<- |]; [by rewrite Hfu | done].
Qed.

Lemma Rich_GetTransaction_eq (J : JSON) key st :
  Rich.GetTransaction key st =
    match getError (host st) key with
    | Some msg =>
        (Err ("failed to read from world state: " +:+ msg),
         mkStub (host st) (txid st) (world st) (rset st ++ [key])
                (wset st) (events st))
    | None =>
        match UnmarshalTransaction (bytesOf (world st !! key)) with
        | Ok t =>
            (Ok t, mkStub (host st) (txid st) (world st) (rset st ++ [key])
                          (wset st) (events st))
        | Err msg =>
            (Err msg, mkStub (host st) (txid st) (world st) (rset st ++ [key])
                             (wset st) (events st))
        end
    end.
Proof. unfold Rich.GetTransaction. crunch; reflexivity. Qed.

(** C8 (amended).  [TransferFrom] stores no [Transaction]: it leaves every
    key other than [from] and [to] as it was, so [GetTransaction] of such a
    key answers after the transfer what it answered before.  The record is
    written by the separate entry point [SetTransaction], which stores
    [{TXID, from, to, value}] under the transaction id of its own
    invocation; once that is committed, and when the record reads back from
    its encoding, [GetTransaction] of that id returns it. *)
Theorem transaction_record (J : JSON) (h : Host) (tx from to : string)
    (value : Z) (w : gmap string string) :
  (forall r w' evs,
     invoke h tx (Rich.TransferFrom from to value) w = (r, w', evs) ->
     forall k, k <> from -> k <> to ->
       w' !! k = w !! k
       /\ forall h' tx',
            (invoke h' tx' (Rich.GetTransaction k) w').1.1
            = (invoke h' tx' (Rich.GetTransaction k) w).1.1)
  /\ (forall t w' evs,
        invoke h tx (Rich.SetTransaction from to value) w = (Ok t, w', evs) ->
        t = mkTransaction tx from to value
        /\ w' = <[tx := MarshalTransaction t]> w
        /\ forall h' tx',
             getError h' tx = None ->
             UnmarshalTransaction (MarshalTransaction t) = Ok t ->
             invoke h' tx' (Rich.GetTransaction tx) w' = (Ok t, w', [])).
Proof.
  split.
  - intros r w' evs Hrun k Hkf Hkt.
    assert (w' !! k = w !! k) as Hk.
    { destruct r as [[] | msg].
      - apply invoke_ok in Hrun as (st & Hst & -> & _).
        apply Rich_TransferFrom_ok in Hst as (_ & _ & fu & tu & _ & _ & _ & ->).
        cbn [begin wset app]. rewrite commit_two.
        by rewrite !lookup_insert_ne.
      - by apply invoke_err in Hrun as [-> _]. }
    split; [done |]. intros h' tx'. unfold invoke.
    rewrite !Rich_GetTransaction_eq. cbn [begin host world]. rewrite Hk.
    destruct (getError h' k); [done |].
    destruct (UnmarshalTransaction _); done.
  - intros t w' evs Hrun. apply invoke_ok in Hrun as (st & Hst & -> & ->).
    revert Hst. unfold Rich.SetTransaction. crunch. intros [= <- <-].
    cbn [wset app]. change (commit w [(tx, ?v)]) with (<[tx := v]> w).
    split; [done |]. split; [reflexivity |].
    intros h' tx' Hg Hback. unfold invoke.
    rewrite Rich_GetTransaction_eq. unfold begin. step.
    rewrite Hg, lookup_insert_eq.
    change (bytesOf (Some ?x)) with x. rewrite Hback.
    reflexivity.
Qed.

End ZeroAndRecords.

(** ** Validation, failure and the event *)

Section Claims.
Import strconv GoInt.

(** C5.  Validation comes first: a transfer to oneself is refused for
    every amount, and a negative amount between two distinct accounts is
    refused, in both files; the stub is handed back as it was received, so
    nothing was read, staged or emitted. *)
Theorem validation_rejects (J : JSON) (st : Stub) (A B : string) (v : Z) :
  (Compact.TransferFrom A A v st
     = (Err "failed to transfer: cannot transfer to and from same client account", st)
   /\ Rich.TransferFrom A A v st
     = (Err "failed to transfer: cannot transfer to and from same client account", st))
  /\ (A <> B -> v < 0 ->
      Compact.TransferFrom A B v st
        = (Err "failed to transfer: transfer amount cannot be negative", st)
      /\ Rich.TransferFrom A B v st
        = (Err "failed to transfer: transfer amount cannot be negative", st)).
Proof.
  unfold Compact.TransferFrom, Rich.TransferFrom, Compact.transferHelper,
    Rich.transferHelper.
  split.
  - run_stub. rewrite String.eqb_refl. done.
  - intros Hne Hv. run_stub.
    destruct (String.eqb_spec A B); [done |].
    destruct (Z.ltb_spec v 0); [done | lia].
Qed.

Lemma validation_rejects_witness :
  Compact.TransferFrom "A" "B" (-1) (begin reliable "tx" Scenario.pairCompact)
    = (Err "failed to transfer: transfer amount cannot be negative",
       begin reliable "tx" Scenario.pairCompact)
  /\ Rich.TransferFrom "A" "B" (-1) (begin reliable "tx" Scenario.pairCompact)
    = (Err "failed to transfer: transfer amount cannot be negative",
       begin reliable "tx" Scenario.pairCompact).
Proof.
  apply (validation_rejects goJSON (begin reliable "tx" Scenario.pairCompact)
           "A" "B" (-1)); [discriminate | lia].
Defined.

(** C10.  [SetEvent] never looks at its [eventName] argument: when the
    host takes the event, the name set on the stub is the literal
    [Transfer] and the payload the encoded event; when the host refuses,
    nothing is set. *)
Theorem SetEvent_name_is_Transfer (J : JSON) (eventName : string) (e : event)
    (st : Stub) :
  Compact.SetEvent eventName e st = Rich.SetEvent eventName e st
  /\ Rich.SetEvent eventName e st =
     match eventError (host st) with
     | None =>
         (Ok tt, mkStub (host st) (txid st) (world st) (rset st) (wset st)
                   (events st ++ [("Transfer", MarshalEvent e)]))
     | Some msg => (Err ("failed to set event: " +:+ msg), st)
     end.
Proof.
  unfold Compact.SetEvent, Rich.SetEvent. split; [reflexivity |].
  crunch; reflexivity.
Qed.

(** C7.  A failing [TransferFrom] changes no balance: the calls of the
    contract only stage writes, the world state [GetState] reads is the
    same before and after, and the host drops the staged writes and the
    event of an invocation that returns an error, whichever step failed. *)
Theorem failure_leaves_balances (J : JSON) (h : Host) (tx from to : string)
    (value : Z) (w : gmap string string) :
  (forall st, world (Compact.TransferFrom from to value st).2 = world st)
  /\ (forall st, world (Rich.TransferFrom from to value st).2 = world st)
  /\ (forall msg w' evs,
        invoke h tx (Compact.TransferFrom from to value) w = (Err msg, w', evs) ->
        w' = w /\ evs = [] /\ forall id, Compact.stored w' id = Compact.stored w id)
  /\ (forall msg w' evs,
        invoke h tx (Rich.TransferFrom from to value) w = (Err msg, w', evs) ->
        w' = w /\ evs = [] /\ forall id, Rich.stored w' id = Rich.stored w id).
Proof.
  split; [apply Compact_TransferFrom_world |].
  split; [apply Rich_TransferFrom_world |].
  split; intros msg w' evs H; apply invoke_err in H as [-> ->]; done.
Qed.

Lemma failure_leaves_balances_witness :
  invoke (Scenario.refusing "B") "tx" (Compact.TransferFrom "A" "B" 2)
         Scenario.pairCompact
    = (Err "failed to transfer: refused", Scenario.pairCompact, [])
  /\ (Scenario.pairCompact = Scenario.pairCompact /\ @nil (string * string) = []
      /\ forall id, Compact.stored Scenario.pairCompact id
                    = Compact.stored Scenario.pairCompact id).
Proof.
  assert (invoke (Scenario.refusing "B") "tx" (Compact.TransferFrom "A" "B" 2)
            Scenario.pairCompact
          = (Err "failed to transfer: refused", Scenario.pairCompact, []))
    as Hrun by (vm_compute; reflexivity).
  split; [exact Hrun |].
  exact (proj1 (proj2 (proj2
           (failure_leaves_balances goJSON (Scenario.refusing "B") "tx" "A" "B" 2
              Scenario.pairCompact))) _ _ _ Hrun).
Defined.

(** When the second write is refused the first one is already staged on
    the stub; it is the host that drops it. *)
Example staged_then_dropped :
  wset (Compact.TransferFrom "A" "B" 2
          (begin (Scenario.refusing "B") "tx" Scenario.pairCompact)).2
    = [("A", "3")]
  /\ wset (Rich.TransferFrom "A" "B" 2
             (begin Scenario.mute "tx" Scenario.pairRich)).2
    = [("A", Scenario.user "A" "user" 3); ("B", Scenario.user "B" "seller" 3)].
Proof. split; vm_compute; reflexivity. Qed.

(** C4 (amended).  With [from <> to], [value >= 0] and a sender whose
    stored balance is below [value]: [token_contract.go] checks the funds
    before it looks at the recipient, so the call fails with the
    insufficient-funds error whatever is stored for the recipient, having
    read the sender's key only; the other file resolves both accounts
    first, so the insufficient-funds error is returned only when the
    recipient can be read and decodes, and the recipient's error is
    returned otherwise.  Nothing is staged in any of these cases. *)
Theorem insufficient_funds (J : JSON) (st : Stub) (from to : string) (value : Z) :
  from <> to -> 0 <= value -> getError (host st) from = None ->
  (forall b, world st !! from = Some b -> (Atoi b).1 < value ->
     Compact.TransferFrom from to value st
     = (Err ("failed to transfer: client account " +:+ from +:+
             " has insufficient funds"),
        mkStub (host st) (txid st) (world st) (rset st ++ [from])
               (wset st) (events st)))
  /\ (forall fu,
        UnmarshalUser (bytesOf (world st !! from)) = Ok fu ->
        Balance fu < value ->
        Rich.TransferFrom from to value st
        = (Err ("failed to transfer: " +:+
                match getError (host st) to with
                | Some msg => "failed to read from world state: " +:+ msg
                | None =>
                    match UnmarshalUser (bytesOf (world st !! to)) with
                    | Ok _ => "user balance lower than " +:+ Itoa value
                    | Err msg => msg
                    end
                end),
           mkStub (host st) (txid st) (world st) ((rset st ++ [from]) ++ [to])
                  (wset st) (events st))).
Proof.
  intros Hne Hv Hg. split.
  - intros b Hb Hlt.
    unfold Compact.TransferFrom, Compact.transferHelper. run_stub.
    destruct (String.eqb_spec from to); [done |].
    destruct (Z.ltb_spec value 0); [lia |]. step. rewrite Hg, Hb. step.
    destruct (Z.ltb_spec (Atoi b).1 value); [done | lia].
  - intros fu Hfu Hlt.
    unfold Rich.TransferFrom, Rich.transferHelper, Rich.GetUser. run_stub.
    destruct (String.eqb_spec from to); [done |].
    destruct (Z.ltb_spec value 0); [lia |]. step. rewrite Hg, Hfu. step.
    destruct (getError (host st) to); step; [done |].
    destruct (UnmarshalUser (bytesOf (world st !! to))); step; [| done].
    destruct (Z.ltb_spec (Balance fu) value); [done | lia].
Qed.

Lemma insufficient_funds_witness :
  Compact.TransferFrom "A" "B" 51 (begin reliable "tx" Scenario.loneCompact)
  = (Err "failed to transfer: client account A has insufficient funds",
     mkStub reliable "tx" Scenario.loneCompact ["A"] [] []).
Proof.
  apply (proj1 (insufficient_funds goJSON (begin reliable "tx" Scenario.loneCompact)
                  "A" "B" 51 ltac:(discriminate) ltac:(lia) eq_refl) "50");
    [reflexivity | vm_compute; reflexivity].
Defined.

(** C4 as stated fails on the second file: the sender holds 50, 51 is asked
    for and no recipient is stored; the error is the recipient's, not the
    insufficient-funds one. *)
Lemma insufficient_funds_counterexample :
  Rich.stored Scenario.loneRich "A" = Some 50
  /\ Scenario.loneRich !! "B" = None
  /\ invoke reliable "tx" (Rich.TransferFrom "A" "B" 51) Scenario.loneRich
     = (Err "failed to transfer: unexpected end of JSON input",
        Scenario.loneRich, [])
  /\ "failed to transfer: unexpected end of JSON input"
     <> "failed to transfer: user balance lower than " +:+ Itoa 51.
Proof. repeat split; try (vm_compute; reflexivity). vm_compute. discriminate. Qed.

End Claims.

(** ** The scenarios *)

Section Scenarios.
Import strconv GoInt Scenario.

(** C1 as stated fails when the recipient's balance overflows: the sender
    holds 1, the recipient the largest [int], and 1 is transferred. *)
Lemma conservation_counterexample :
  (invoke reliable "tx" (Compact.TransferFrom "A" "B" 1) fullCompact
     = (Ok tt, wrappedCompact, [transferred "A" "B" 1])
   /\ Compact.stored fullCompact "A" + Compact.stored fullCompact "B"
      = 9223372036854775808
   /\ Compact.stored wrappedCompact "A" + Compact.stored wrappedCompact "B"
      = -9223372036854775808
   /\ Compact.stored wrappedCompact "A" + Compact.stored wrappedCompact "B"
      <> Compact.stored fullCompact "A" + Compact.stored fullCompact "B")
  /\ (invoke reliable "tx" (Rich.TransferFrom "A" "B" 1) fullRich
        = (Ok tt, wrappedRich, [transferred "A" "B" 1])
      /\ Rich.stored fullRich "A" = Some 1
      /\ Rich.stored fullRich "B" = Some 9223372036854775807
      /\ Rich.stored wrappedRich "A" = Some 0
      /\ Rich.stored wrappedRich "B" = Some (-9223372036854775808)
      /\ 0 + -9223372036854775808 <> 1 + 9223372036854775807).
Proof. repeat split; try (vm_compute; reflexivity); vm_compute; discriminate. Qed.

Lemma conservation_witness :
  exists f t f' t',
    Rich.stored seeded "TestUser" = Some f /\
    Rich.stored seeded "TestSeller" = Some t /\
    Rich.stored settled "TestUser" = Some f' /\
    Rich.stored settled "TestSeller" = Some t' /\
    (t + 2500 <= MaxInt -> f' + t' = f + t) /\
    wrap (f' + t') = wrap (f + t).
Proof.
  apply (proj2 (conservation goJSON goJSON_laws reliable "tx1" "TestUser"
                  "TestSeller" 2500 seeded settled
                  [transferred "TestUser" "TestSeller" 2500]
                  ltac:(unfold is_int, MinInt, MaxInt; lia))).
  vm_compute. reflexivity.
Defined.

Lemma Compact_nonneg_pair : Compact.nonneg pairCompact.
Proof.
  intros id. unfold pairCompact. rewrite <- insert_empty.
  rewrite !Compact_stored_insert. repeat case_decide; try (vm_compute; discriminate).
Qed.

Lemma Compact_nonneg_full : Compact.nonneg fullCompact.
Proof.
  intros id. unfold fullCompact. rewrite <- insert_empty.
  rewrite !Compact_stored_insert. repeat case_decide; try (vm_compute; discriminate).
Qed.

Lemma Rich_nonneg_full : Rich.nonneg fullRich.
Proof.
  intros id b. unfold fullRich. rewrite <- insert_empty.
  rewrite !(Rich_stored_insert (J := goJSON)).
  repeat case_decide; vm_compute; intros [= <-]; discriminate.
Qed.

(** C2 as stated fails when the recipient's balance overflows: every
    stored balance is non-negative, the transfer of 1 to a recipient that
    holds the largest [int] succeeds, and the recipient's stored balance is
    negative afterwards. *)
Lemma nonneg_preserved_counterexample :
  (Compact.nonneg fullCompact
   /\ invoke reliable "tx" (Compact.TransferFrom "A" "B" 1) fullCompact
      = (Ok tt, wrappedCompact, [transferred "A" "B" 1])
   /\ Compact.stored wrappedCompact "B" = -9223372036854775808
   /\ ~ Compact.nonneg wrappedCompact)
  /\ (Rich.nonneg fullRich
      /\ invoke reliable "tx" (Rich.TransferFrom "A" "B" 1) fullRich
         = (Ok tt, wrappedRich, [transferred "A" "B" 1])
      /\ Rich.stored wrappedRich "B" = Some (-9223372036854775808)
      /\ ~ Rich.nonneg wrappedRich).
Proof.
  split; (split; [apply Compact_nonneg_full || apply Rich_nonneg_full |]).
  - repeat split; try (vm_compute; reflexivity).
    intros H. specialize (H "B"). vm_compute in H. by apply H.
  - repeat split; try (vm_compute; reflexivity).
    intros H. specialize (H "B" (-9223372036854775808) ltac:(vm_compute; reflexivity)).
    vm_compute in H. by apply H.
Qed.

Lemma nonneg_preserved_witness :
  Compact.nonneg
    (Compact.next reliable "tx" (Compact.CallTransferFrom "A" "B" 2) pairCompact).
Proof.
  apply (proj1 (nonneg_preserved goJSON goJSON_laws reliable "tx" pairCompact)
           (Compact.CallTransferFrom "A" "B" 2) Compact_nonneg_pair).
  split; [unfold is_int, MinInt, MaxInt; lia | vm_compute; discriminate].
Defined.

(** C3, on [token_contract.go].  After [InitLedger] the two balances are
    100000 and 0 as claimed, but [TransferFrom("TestUser", "TestSeller",
    2500)] fails: [transferHelper] reads the JSON record that [InitLedger]
    stored with [Atoi], drops the error and takes the balance to be 0.  No
    balance changes and no event is emitted. *)
Theorem scenario_on_token_contract :
  invoke reliable "tx0" Compact.InitLedger ∅ = (Ok tt, seeded, [])
  /\ invoke reliable "tx1" (Compact.BalanceOf "TestUser") seeded
     = (Ok 100000, seeded, [])
  /\ invoke reliable "tx2" (Compact.BalanceOf "TestSeller") seeded
     = (Ok 0, seeded, [])
  /\ Atoi (user "TestUser" "user" 100000) = (0, Some ErrSyntax)
  /\ invoke reliable "tx3" (Compact.TransferFrom "TestUser" "TestSeller" 2500)
            seeded
     = (Err "failed to transfer: client account TestUser has insufficient funds",
        seeded, []).
Proof. repeat split; vm_compute; reflexivity. Qed.

(** The same scenario on the second file goes through as specified. *)
Lemma scenario_on_records :
  invoke reliable "tx0" Rich.InitLedger ∅ = (Ok tt, seeded, [])
  /\ invoke reliable "tx1" (Rich.BalanceOf "TestUser") seeded
     = (Ok 100000, seeded, [])
  /\ invoke reliable "tx2" (Rich.BalanceOf "TestSeller") seeded
     = (Ok 0, seeded, [])
  /\ invoke reliable "tx3" (Rich.TransferFrom "TestUser" "TestSeller" 2500) seeded
     = (Ok tt, settled, [transferred "TestUser" "TestSeller" 2500])
  /\ invoke reliable "tx4" (Rich.BalanceOf "TestUser") settled
     = (Ok 97500, settled, [])
  /\ invoke reliable "tx5" (Rich.BalanceOf "TestSeller") settled
     = (Ok 2500, settled, []).
Proof. repeat split; vm_compute; reflexivity. Qed.

(** C6 as stated fails for a sender stored with a negative balance: the
    sufficiency check refuses the transfer of 0. *)
Lemma zero_transfer_counterexample :
  (debtCompact !! "A" = Some "-5"
   /\ invoke reliable "tx" (Compact.TransferFrom "A" "B" 0) debtCompact
      = (Err "failed to transfer: client account A has insufficient funds",
         debtCompact, []))
  /\ (Rich.stored debtRich "A" = Some (-5)
      /\ Rich.stored debtRich "B" = Some 0
      /\ invoke reliable "tx" (Rich.TransferFrom "A" "B" 0) debtRich
         = (Err "failed to transfer: user balance lower than 0", debtRich, [])).
Proof. repeat split; vm_compute; reflexivity. Qed.

Lemma zero_transfer_witness :
  exists w',
    invoke reliable "tx" (Compact.TransferFrom "A" "B" 0) pairCompact
      = (Ok tt, w', [("Transfer", MarshalEvent (mkEvent "A" "B" 0))])
    /\ forall id, Compact.stored w' id = Compact.stored pairCompact id.
Proof.
  apply (proj1 (zero_transfer goJSON goJSON_laws reliable "tx" "A" "B" pairCompact
                  ltac:(discriminate) eq_refl eq_refl eq_refl eq_refl eq_refl)
           "5"); [reflexivity | vm_compute; discriminate].
Defined.

(** C8 as stated fails: after a successful [TransferFrom] run under the
    transaction id [tx1], nothing is stored under [tx1] and
    [GetTransaction] fails. *)
Lemma transaction_record_counterexample :
  invoke reliable "tx1" (Rich.TransferFrom "TestUser" "TestSeller" 2500) seeded
    = (Ok tt, settled, [transferred "TestUser" "TestSeller" 2500])
  /\ settled !! "tx1" = None
  /\ invoke reliable "tx2" (Rich.GetTransaction "tx1") settled
     = (Err "unexpected end of JSON input", settled, []).
Proof. repeat split; vm_compute; reflexivity. Qed.

Lemma transaction_record_witness :
  invoke reliable "tx2" (Rich.GetTransaction "tx1") recorded
  = (Ok (mkTransaction "tx1" "TestUser" "TestSeller" 2500), recorded, []).
Proof.
  assert (invoke reliable "tx1" (Rich.SetTransaction "TestUser" "TestSeller" 2500)
            settled
          = (Ok (mkTransaction "tx1" "TestUser" "TestSeller" 2500), recorded, []))
    as Hrun by (vm_compute; reflexivity).
  destruct (proj2 (transaction_record goJSON reliable "tx1" "TestUser"
                     "TestSeller" 2500 settled) _ _ _ Hrun) as (_ & _ & Hget).
  apply Hget; vm_compute; reflexivity.
Defined.

(** C9, on [token_contract.go].  The bytes stored for the sender are no
    integer: [BalanceOf] fails, but [TransferFrom] takes the balance to be 0,
    succeeds and overwrites the stored bytes. *)
Theorem decode_error_swallowed :
  Atoi "abc" = (0, Some ErrSyntax)
  /\ invoke reliable "tx1" (Compact.BalanceOf "A") garbled
     = (Err "user id A does not exist", garbled, [])
  /\ invoke reliable "tx2" (Compact.TransferFrom "A" "B" 0) garbled
     = (Ok tt, {[ "A" := "0"; "B" := "5" ]}, [transferred "A" "B" 0])
  /\ invoke reliable "tx3" (Compact.TransferFrom "TestUser" "TestSeller" 0) seeded
     = (Ok tt, {[ "TestUser" := "0"; "TestSeller" := "0" ]},
        [transferred "TestUser" "TestSeller" 0]).
Proof. repeat split; vm_compute; reflexivity. Qed.

(** On the second file the same bytes make both calls fail. *)
Lemma decode_error_reported :
  is_ok (invoke reliable "tx1" (Rich.BalanceOf "A") garbled).1.1 = false
  /\ is_ok (invoke reliable "tx2" (Rich.TransferFrom "A" "B" 0) garbled).1.1
     = false.
Proof. split; vm_compute; reflexivity. Qed.

End Scenarios.

(** * Further properties of the two files *)

(** ** Bootstrap and queries *)

Section Bootstrap.
Import strconv GoInt.

Lemma Rich_InitLedger_run (J : JSON) h tx (w : gmap string string) :
  invoke h tx Rich.InitLedger w
  = match putError h "TestUser" with
    | Some msg => (Err ("failed to put to world state. " +:+ msg), w, [])
    | None =>
        match putError h "TestSeller" with
        | Some msg => (Err ("failed to put to world state. " +:+ msg), w, [])
        | None =>
            (Ok tt,
             <["TestSeller" := MarshalUser (mkUser "TestSeller" "seller" 0)]>
               (<["TestUser" := MarshalUser (mkUser "TestUser" "user" 100000)]>
                  w),
             [])
        end
    end.
Proof.
  unfold invoke, begin, Rich.InitLedger, Rich.assets. cbn [Rich.putAssets ID].
  crunch; reflexivity.
Qed.

(** X1.  [InitLedger] is the same function in the two files.  It reads
    nothing and emits nothing; it fails as soon as the host refuses one of
    its two writes, with the host's message after its own prefix, and then
    nothing is committed; otherwise it commits exactly the two seed records
    over whatever the two keys held. *)
Theorem InitLedger_outcome (J : JSON) (h : Host) (tx : string)
    (w : gmap string string) :
  (forall st, Compact.InitLedger st = Rich.InitLedger st)
  /\ (forall st, rset (Rich.InitLedger st).2 = rset st
                 /\ events (Rich.InitLedger st).2 = events st)
  /\ invoke h tx Rich.InitLedger w
     = match putError h "TestUser" with
       | Some msg => (Err ("failed to put to world state. " +:+ msg), w, [])
       | None =>
           match putError h "TestSeller" with
           | Some msg => (Err ("failed to put to world state. " +:+ msg), w, [])
           | None =>
               (Ok tt,
                <["TestSeller" := MarshalUser (mkUser "TestSeller" "seller" 0)]>
                  (<["TestUser" := MarshalUser (mkUser "TestUser" "user" 100000)]>
                     w),
                [])
           end
       end.
Proof.
  split; [reflexivity |]. split; [| apply Rich_InitLedger_run].
  intros st. unfold Rich.InitLedger, Rich.assets. cbn [Rich.putAssets ID].
  crunch; done.
Qed.

(** X2.  When the host takes the two writes, [InitLedger] succeeds on every
    world state: afterwards the balances of [TestUser] and [TestSeller] are
    100000 and 0 whatever they were before, every other key is as it was,
    and running [InitLedger] again changes nothing. *)
Theorem InitLedger_resets (J : JSON) (HJ : JSONLaws J) (h : Host) (tx : string)
    (w : gmap string string) :
  putError h "TestUser" = None -> putError h "TestSeller" = None ->
  exists w',
    invoke h tx Rich.InitLedger w = (Ok tt, w', [])
    /\ Rich.stored w' "TestUser" = Some 100000
    /\ Rich.stored w' "TestSeller" = Some 0
    /\ (forall k, k <> "TestUser" -> k <> "TestSeller" -> w' !! k = w !! k)
    /\ invoke h tx Rich.InitLedger w' = (Ok tt, w', []).
Proof.
  intros H1 H2.
  pose proof (Rich_InitLedger_run J h tx w) as Hrun.
  rewrite H1, H2 in Hrun. eexists. split; [exact Hrun |].
  rewrite !Rich_stored_insert.
  rewrite (decide_True (P := "TestSeller" = "TestSeller")) by done.
  rewrite (decide_False (P := "TestSeller" = "TestUser")) by done.
  rewrite (decide_True (P := "TestUser" = "TestUser")) by done.
  rewrite !Rich_stored_marshal
    by (done || (cbn [Balance]; unfold is_int, MinInt, MaxInt; lia)).
  repeat split.
  - intros k Hu Hs. by rewrite !lookup_insert_ne.
  - rewrite Rich_InitLedger_run, H1, H2.
    f_equal. f_equal. apply map_eq. intros k.
    rewrite !lookup_insert. repeat case_decide; done.
Qed.

Lemma InitLedger_resets_witness :
  exists w',
    invoke reliable "tx" Rich.InitLedger Scenario.settled = (Ok tt, w', [])
    /\ Rich.stored w' "TestUser" = Some 100000
    /\ Rich.stored w' "TestSeller" = Some 0
    /\ (forall k, k <> "TestUser" -> k <> "TestSeller" ->
                  w' !! k = Scenario.settled !! k)
    /\ invoke reliable "tx" Rich.InitLedger w' = (Ok tt, w', []).
Proof.
  apply (InitLedger_resets goJSON goJSON_laws reliable "tx" Scenario.settled);
    reflexivity.
Defined.

(** X3.  The four queries of each file only read: whatever they answer,
    they hand the stub back with the key added to the keys read and with
    nothing staged and no event set. *)
Theorem queries_only_read (J : JSON) (id : string) (st : Stub) :
  let st' := mkStub (host st) (txid st) (world st) (rset st ++ [id])
                    (wset st) (events st) in
  (Compact.BalanceOf id st).2 = st' /\ (Compact.GetUser id st).2 = st'
  /\ (Compact.UserExist id st).2 = st' /\ (Compact.GetTransaction id st).2 = st'
  /\ (Rich.BalanceOf id st).2 = st' /\ (Rich.GetUser id st).2 = st'
  /\ (Rich.UserExist id st).2 = st' /\ (Rich.GetTransaction id st).2 = st'.
Proof.
  cbv zeta.
  unfold Compact.BalanceOf, Compact.GetUser, Compact.UserExist,
    Compact.GetTransaction, Rich.BalanceOf, Rich.GetUser, Rich.UserExist,
    Rich.GetTransaction.
  repeat split; crunch; reflexivity.
Qed.

(** X4.  [BalanceOf] answers the same in the two files: the balance of the
    record stored under the key when the host lets it read and the record
    decodes, and otherwise one and the same error, whether the host failed,
    the key is missing or the bytes do not decode. *)
Theorem BalanceOf_outcome (J : JSON) (id : string) (st : Stub) :
  Compact.BalanceOf id st = Rich.BalanceOf id st
  /\ (Rich.BalanceOf id st).1
     = match getError (host st) id with
       | Some _ => Err ("user id " +:+ id +:+ " does not exist")
       | None =>
           match UnmarshalUser (bytesOf (world st !! id)) with
           | Ok user => Ok (Balance user)
           | Err _ => Err ("user id " +:+ id +:+ " does not exist")
           end
       end.
Proof.
  split; [apply Compact_BalanceOf_Rich |].
  unfold Rich.BalanceOf, Rich.GetUser. crunch; reflexivity.
Qed.

(** X5.  An account whose balance can be read exists: when [BalanceOf]
    succeeds on a key, [UserExist] answers [true] on it, in both files. *)
Theorem balance_implies_exists (J : JSON) (HJ : JSONLaws J) (id : string)
    (st : Stub) (b : Z) :
  (Compact.BalanceOf id st).1 = Ok b \/ (Rich.BalanceOf id st).1 = Ok b ->
  (Compact.UserExist id st).1 = Ok true /\ (Rich.UserExist id st).1 = Ok true.
Proof.
  rewrite Compact_BalanceOf_Rich. intros Hb.
  assert ((Rich.BalanceOf id st).1 = Ok b) as H by (by destruct Hb).
  clear Hb. revert H.
  unfold Rich.BalanceOf, Rich.GetUser, Compact.UserExist, Rich.UserExist.
  destruct (unmarshal_user_empty J HJ) as [msg Hempty].
  crunch.
  destruct (world st !! id) as [bytes |] eqn:Hw.
  - intros _. split; reflexivity.
  - cbn in Heqr. congruence.
Qed.

Lemma balance_implies_exists_witness :
  (Compact.UserExist "TestUser" (begin reliable "tx" Scenario.seeded)).1 = Ok true
  /\ (Rich.UserExist "TestUser" (begin reliable "tx" Scenario.seeded)).1 = Ok true.
Proof.
  apply (balance_implies_exists goJSON goJSON_laws "TestUser"
           (begin reliable "tx" Scenario.seeded) 100000).
  left. vm_compute. reflexivity.
Defined.

(** The converse fails: bytes that do not decode exist but have no balance. *)
Example exists_without_balance :
  (Rich.UserExist "A" (begin reliable "tx" Scenario.garbled)).1 = Ok true
  /\ is_ok (Rich.BalanceOf "A" (begin reliable "tx" Scenario.garbled)).1 = false.
Proof. split; vm_compute; reflexivity. Qed.

(** X6.  [GetUser] succeeds on the same inputs and with the same record in
    the two files; on a failure [token_contract.go] keeps the host's message
    but replaces the decoder's by the empty message. *)
Theorem GetUser_messages (J : JSON) (id : string) (st : Stub) :
  Compact.GetUser id st
  = match Rich.GetUser id st with
    | (Ok user, st') => (Ok user, st')
    | (Err msg, st') =>
        (Err match getError (host st) id with
             | Some _ => msg
             | None => ""
             end, st')
    end.
Proof. unfold Compact.GetUser, Rich.GetUser. crunch; reflexivity. Qed.

End Bootstrap.

(** ** More on transfers *)

Section Transfers.
Import strconv GoInt.

(** X7.  A transfer needs a sender: when nothing is stored under [from],
    [TransferFrom] fails in both files, having staged nothing and set no
    event. *)
Theorem sender_must_exist (J : JSON) (HJ : JSONLaws J) (from to : string)
    (value : Z) (st : Stub) :
  world st !! from = None ->
  (is_ok (Compact.TransferFrom from to value st).1 = false
   /\ wset (Compact.TransferFrom from to value st).2 = wset st
   /\ events (Compact.TransferFrom from to value st).2 = events st)
  /\ (is_ok (Rich.TransferFrom from to value st).1 = false
      /\ wset (Rich.TransferFrom from to value st).2 = wset st
      /\ events (Rich.TransferFrom from to value st).2 = events st).
Proof.
  intros Hfrom. destruct (unmarshal_user_empty J HJ) as [msg Hempty]. split.
  - unfold Compact.TransferFrom, Compact.SetEvent, Compact.transferHelper.
    repeat split; crunch; rewrite ?Hfrom; done.
  - unfold Rich.TransferFrom, Rich.SetEvent, Rich.transferHelper, Rich.GetUser.
    repeat split; crunch; try done.
    all: rewrite Hfrom in *; change (bytesOf None) with "" in *; congruence.
Qed.

Lemma sender_must_exist_witness :
  is_ok (Compact.TransferFrom "C" "A" 1 (begin reliable "tx" Scenario.pairCompact)).1
  = false
  /\ wset (Compact.TransferFrom "C" "A" 1 (begin reliable "tx" Scenario.pairCompact)).2
     = []
  /\ events (Compact.TransferFrom "C" "A" 1 (begin reliable "tx" Scenario.pairCompact)).2
     = [].
Proof.
  apply (proj1 (sender_must_exist goJSON goJSON_laws "C" "A" 1
                  (begin reliable "tx" Scenario.pairCompact) eq_refl)).
Defined.

(** X8.  A recipient that is not stored: [token_contract.go] creates it,
    with the amount as its balance; the other file refuses the transfer,
    stages nothing and sets no event. *)
Theorem recipient_not_stored (J : JSON) (HJ : JSONLaws J) (h : Host)
    (tx from to : string) (value : Z) (w : gmap string string) :
  w !! to = None ->
  (forall b,
     from <> to -> 0 <= value -> is_int value ->
     getError h from = None -> getError h to = None ->
     putError h from = None -> putError h to = None -> eventError h = None ->
     w !! from = Some b -> value <= (Atoi b).1 ->
     exists w',
       invoke h tx (Compact.TransferFrom from to value) w
       = (Ok tt, w', [("Transfer", MarshalEvent (mkEvent from to value))])
       /\ w' !! to = Some (Itoa value)
       /\ Compact.stored w' to = value)
  /\ exists msg,
       invoke h tx (Rich.TransferFrom from to value) w = (Err msg, w, []).
Proof.
  intros Hto. split.
  - intros b Hne Hv Hi Hgf Hgt Hpf Hpt He Hb Hle.
    pose proof (Compact_TransferFrom_run from to value (begin h tx w) b Hne Hv
                  Hgf Hgt Hpf Hpt He Hb Hle) as Hrun.
    apply invoke_run in Hrun. cbn [begin wset events world app] in Hrun.
    eexists. split; [exact Hrun |]. rewrite commit_two.
    assert (Compact.stored w to = 0) as -> by (unfold Compact.stored; by rewrite Hto).
    unfold add. rewrite Z.add_0_l, (wrap_id value Hi).
    split; [by rewrite lookup_insert_eq |].
    rewrite Compact_stored_insert, decide_True by done.
    by rewrite Atoi_Itoa.
  - assert (is_ok (Rich.TransferFrom from to value (begin h tx w)).1 = false) as H.
    { destruct (unmarshal_user_empty J HJ) as [msg Hempty].
      unfold Rich.TransferFrom, Rich.SetEvent, Rich.transferHelper, Rich.GetUser,
        begin.
      crunch; try done.
      all: rewrite Hto in *; change (bytesOf None) with "" in *; congruence. }
    unfold invoke. destruct (Rich.TransferFrom from to value (begin h tx w))
      as [[[] | msg] st']; [done | eauto].
Qed.

Lemma recipient_not_stored_witness :
  exists w',
    invoke reliable "tx" (Compact.TransferFrom "A" "B" 20) Scenario.loneCompact
    = (Ok tt, w', [("Transfer", MarshalEvent (mkEvent "A" "B" 20))])
    /\ w' !! "B" = Some (Itoa 20)
    /\ Compact.stored w' "B" = 20.
Proof.
  apply (proj1 (recipient_not_stored goJSON goJSON_laws reliable "tx" "A" "B" 20
                  Scenario.loneCompact eq_refl) "50");
    try reflexivity; try discriminate;
    try (unfold is_int, MinInt, MaxInt; lia); vm_compute; discriminate.
Defined.

Lemma Compact_TransferFrom_balances (J : JSON) h tx from to value
    (w w' : gmap string string) evs :
  is_int value ->
  invoke h tx (Compact.TransferFrom from to value) w = (Ok tt, w', evs) ->
  from <> to /\ 0 <= value <= Compact.stored w from
  /\ is_Some (w !! from)
  /\ w' = <[to := Itoa (wrap (Compact.stored w to + value))]>
            (<[from := Itoa (Compact.stored w from - value)]> w)
  /\ evs = [("Transfer", MarshalEvent (mkEvent from to value))].
Proof.
  intros Hvalue Hrun.
  apply invoke_ok in Hrun as (st & Hst & -> & ->).
  apply Compact_TransferFrom_ok in Hst as (Hne & Hv & b & Hb & Hle & ->).
  cbn [begin world wset events app] in *. rewrite commit_two.
  assert (Compact.stored w from = (Atoi b).1) as Hf
    by (unfold Compact.stored; by rewrite Hb).
  pose proof (Atoi_is_int b) as Hfi. rewrite Hf, Hb.
  assert (sub (Atoi b).1 value = (Atoi b).1 - value) as ->.
  { apply wrap_id. unfold is_int, MinInt, MaxInt in *. lia. }
  repeat split; done || lia || eauto.
Qed.

Lemma Rich_TransferFrom_balances (J : JSON) (HJ : JSONLaws J) h tx from to value
    (w w' : gmap string string) evs :
  is_int value ->
  invoke h tx (Rich.TransferFrom from to value) w = (Ok tt, w', evs) ->
  exists fu tu,
    UnmarshalUser (bytesOf (w !! from)) = Ok fu
    /\ UnmarshalUser (bytesOf (w !! to)) = Ok tu
    /\ from <> to /\ 0 <= value <= Balance fu
    /\ w' = <[to := MarshalUser (mkUser (ID tu) (Type_ tu)
                                        (wrap (Balance tu + value)))]>
              (<[from := MarshalUser (mkUser (ID fu) (Type_ fu)
                                            (Balance fu - value))]> w)
    /\ evs = [("Transfer", MarshalEvent (mkEvent from to value))].
Proof.
  intros Hvalue Hrun.
  apply invoke_ok in Hrun as (st & Hst & -> & ->).
  apply Rich_TransferFrom_ok in Hst
    as (Hne & Hv & fu & tu & Hfu & Htu & Hle & ->).
  cbn [begin world wset events app] in *. rewrite commit_two.
  pose proof (unmarshal_user_int J HJ _ _ Hfu) as Hfi.
  exists fu, tu. unfold debit, credit, add.
  assert (sub (Balance fu) value = Balance fu - value) as ->.
  { apply wrap_id. unfold is_int, MinInt, MaxInt in *. lia. }
  repeat split; done || lia.
Qed.

(** X9.  What a successful [TransferFrom] leaves: the sender's balance is
    lowered by the amount, the recipient's is raised by it (wrapping around
    at the largest [int]), no other key is touched, and exactly one event,
    named [Transfer] and carrying [from], [to] and the amount, is emitted.
    In the second file only the balance field of the two records changes. *)
Theorem transfer_outcome (J : JSON) (HJ : JSONLaws J) (h : Host)
    (tx from to : string) (value : Z) (w w' : gmap string string)
    (evs : list (string * string)) :
  is_int value ->
  (invoke h tx (Compact.TransferFrom from to value) w = (Ok tt, w', evs) ->
   Compact.stored w' from = Compact.stored w from - value
   /\ Compact.stored w' to = wrap (Compact.stored w to + value)
   /\ (forall k, k <> from -> k <> to -> w' !! k = w !! k)
   /\ evs = [("Transfer", MarshalEvent (mkEvent from to value))])
  /\ (invoke h tx (Rich.TransferFrom from to value) w = (Ok tt, w', evs) ->
      exists fu tu,
        UnmarshalUser (bytesOf (w !! from)) = Ok fu
        /\ UnmarshalUser (bytesOf (w !! to)) = Ok tu
        /\ w' !! from = Some (MarshalUser (mkUser (ID fu) (Type_ fu)
                                                  (Balance fu - value)))
        /\ w' !! to = Some (MarshalUser (mkUser (ID tu) (Type_ tu)
                                                (wrap (Balance tu + value))))
        /\ Rich.stored w' from = Some (Balance fu - value)
        /\ Rich.stored w' to = Some (wrap (Balance tu + value))
        /\ (forall k, k <> from -> k <> to -> w' !! k = w !! k)
        /\ evs = [("Transfer", MarshalEvent (mkEvent from to value))]).
Proof.
  intros Hvalue. split; intros Hrun.
  - apply Compact_TransferFrom_balances in Hrun
      as (Hne & Hv & _ & -> & ->); [| done].
    pose proof (is_int_wrap (Compact.stored w to + value)) as Hti.
    assert (is_int (Compact.stored w from - value)) as Hfi.
    { assert (is_int (Compact.stored w from)) as H.
      { unfold Compact.stored. destruct (w !! from); [apply Atoi_is_int |].
        unfold is_int, MinInt, MaxInt. lia. }
      unfold is_int, MinInt, MaxInt in *. lia. }
    rewrite !Compact_stored_insert.
    rewrite (decide_True (P := to = to)) by done.
    rewrite (decide_False (P := to = from)) by done.
    rewrite (decide_True (P := from = from)) by done.
    rewrite !Atoi_Itoa by done. repeat split.
    intros k Hkf Hkt. by rewrite !lookup_insert_ne.
  - apply Rich_TransferFrom_balances in Hrun
      as (fu & tu & Hfu & Htu & Hne & Hv & -> & ->); [| done | done].
    pose proof (unmarshal_user_int J HJ _ _ Hfu) as Hfi.
    exists fu, tu. split; [done |]. split; [done |].
    rewrite !Rich_stored_insert.
    rewrite (decide_True (P := to = to)) by done.
    rewrite (decide_False (P := to = from)) by done.
    rewrite (decide_True (P := from = from)) by done.
    rewrite !Rich_stored_marshal
      by (done || apply is_int_wrap
          || (cbn [Balance]; unfold is_int, MinInt, MaxInt in *; lia)).
    cbn [Balance]. rewrite lookup_insert_eq, lookup_insert_ne, lookup_insert_eq by done.
    repeat split. intros k Hkf Hkt. by rewrite !lookup_insert_ne.
Qed.

Lemma transfer_outcome_witness :
  Compact.stored {[ "A" := "3"; "B" := "3" ]} "A" = Compact.stored Scenario.pairCompact "A" - 2
  /\ Compact.stored {[ "A" := "3"; "B" := "3" ]} "B"
     = wrap (Compact.stored Scenario.pairCompact "B" + 2)
  /\ (forall k, k <> "A" -> k <> "B" ->
        ({[ "A" := "3"; "B" := "3" ]} : gmap string string) !! k
        = Scenario.pairCompact !! k)
  /\ [Scenario.transferred "A" "B" 2]
     = [("Transfer", MarshalEvent (mkEvent "A" "B" 2))].
Proof.
  apply (proj1 (transfer_outcome goJSON goJSON_laws reliable "tx" "A" "B" 2
                  Scenario.pairCompact {[ "A" := "3"; "B" := "3" ]}
                  [Scenario.transferred "A" "B" 2]
                  ltac:(unfold is_int, MinInt, MaxInt; lia))).
  vm_compute. reflexivity.
Defined.

End Transfers.

(** ** What the stored values keep being *)
Section KeptFacts.
Import strconv GoInt Kept.

Lemma integers_commit ws :
  forall w, integers w -> Forall (fun kv => (Atoi kv.2).2 = None) ws ->
            integers (commit w ws).
Proof.
  induction ws as [| [k v] ws IH]; intros w Hw Hws; [done |].
  inversion Hws as [| ? ? Hv Hws']; subst. apply IH; [| done].
  intros k' b. cbn [fst snd]. rewrite lookup_insert.
  case_decide; [intros [= <-]; done | apply Hw].
Qed.

Lemma decodable_commit (J : JSON) ws :
  forall w, decodable w -> Forall (fun kv => is_ok (UnmarshalUser kv.2) = true) ws ->
            decodable (commit w ws).
Proof.
  induction ws as [| [k v] ws IH]; intros w Hw Hws; [done |].
  inversion Hws as [| ? ? Hv Hws']; subst. apply IH; [| done].
  intros k' b. cbn [fst snd]. rewrite lookup_insert.
  case_decide; [intros [= <-]; done | apply Hw].
Qed.

(** X10.  In [token_contract.go] the comment on the dropped [Atoi] error
    holds of what [transferHelper] itself writes: if every stored value is
    an integer that [Atoi] reads without error, this is still so after any
    [TransferFrom], whatever its arguments and outcome. *)
Theorem integers_kept (J : JSON) (h : Host) (tx from to : string) (value : Z)
    (w : gmap string string) :
  integers w ->
  integers (invoke h tx (Compact.TransferFrom from to value) w).1.2.
Proof.
  intros Hw. unfold invoke.
  destruct (Compact.TransferFrom from to value (begin h tx w))
    as [[[] | msg] st] eqn:Hrun; cbn [fst snd]; [| done].
  apply Compact_TransferFrom_ok in Hrun as (_ & _ & b & _ & _ & ->).
  cbn [begin wset app]. apply integers_commit; [done |].
  repeat constructor; cbn [snd]; by rewrite Atoi_Itoa by apply is_int_wrap.
Qed.

Lemma integers_pair : integers Scenario.pairCompact.
Proof.
  intros k b. unfold Scenario.pairCompact. rewrite <- insert_empty.
  rewrite !lookup_insert. repeat case_decide; try done; by intros [= <-].
Qed.

Lemma integers_kept_witness :
  integers
    (invoke reliable "tx" (Compact.TransferFrom "A" "B" 2) Scenario.pairCompact).1.2.
Proof. apply (integers_kept goJSON reliable "tx" "A" "B" 2 _ integers_pair). Defined.

(** What [InitLedger] stores is no such integer. *)
Lemma InitLedger_breaks_integers (J : JSON) (HJ : JSONLaws J) h tx
    (w : gmap string string) :
  putError h "TestUser" = None -> putError h "TestSeller" = None ->
  ~ integers (invoke h tx Compact.InitLedger w).1.2.
Proof.
  intros H1 H2 Hint.
  change (Compact.InitLedger) with (Rich.InitLedger) in Hint.
  rewrite Rich_InitLedger_run, H1, H2 in Hint. cbn [fst snd] in Hint.
  specialize (Hint "TestSeller" _ (lookup_insert_eq _ _ _)).
  destruct (marshal_user_object J HJ (mkUser "TestSeller" "seller" 0)) as [r Hr].
  rewrite Hr in Hint. discriminate Hint.
Qed.

(** X11.  In the second file every stored value that decodes as a [User]
    keeps doing so: [InitLedger], [TransferFrom] and the queries leave a
    world state in which every value decodes, if they found one. *)
Theorem decodable_kept (J : JSON) (HJ : JSONLaws J) (h : Host) (tx : string)
    (c : Rich.Call) (w : gmap string string) :
  (forall from to balance, c <> Rich.CallSetTransaction from to balance) ->
  decodable w -> decodable (Rich.next h tx c w).
Proof.
  intros Hc Hw.
  assert (forall u, is_int (Balance u) -> is_ok (UnmarshalUser (MarshalUser u)) = true)
    as Hback.
  { intros u Hu. by destruct (marshal_user_balance J HJ u Hu) as (u' & -> & _). }
  unfold Rich.next, invoke.
  destruct (Rich.call c (begin h tx w)) as [[[] | msg] st] eqn:Hrun;
    cbn [fst snd]; [| done].
  apply decodable_commit; [done |]. revert Hrun.
  destruct c as [| id | from to value | name e | id | id | txid | from to value];
    cbn [Rich.call].
  - unfold Rich.InitLedger, Rich.assets. cbn [Rich.putAssets ID].
    crunch. intros [= <-]. cbn [wset app].
    repeat constructor; cbn [snd]; apply Hback; cbn [Balance];
      unfold is_int, MinInt, MaxInt; lia.
  - unfold Rich.BalanceOf, Rich.GetUser. crunch. intros [= <-]. constructor.
  - intros Hrun.
    apply Rich_TransferFrom_ok in Hrun as (_ & _ & fu & tu & _ & _ & _ & ->).
    cbn [begin wset app].
    repeat constructor; cbn [snd]; apply Hback; apply is_int_wrap.
  - unfold Rich.SetEvent. crunch. intros [= <-]. constructor.
  - unfold Rich.GetUser. crunch. intros [= <-]. constructor.
  - unfold Rich.UserExist. crunch. intros [= <-]. constructor.
  - unfold Rich.GetTransaction. crunch. intros [= <-]. constructor.
  - by destruct (Hc from to value).
Qed.

Lemma decodable_seeded : decodable (J := goJSON) Scenario.seeded.
Proof.
  intros k b. unfold Scenario.seeded. rewrite <- insert_empty.
  rewrite !lookup_insert. repeat case_decide; try done; by intros [= <-].
Qed.

Lemma decodable_kept_witness :
  decodable (J := goJSON)
    (Rich.next reliable "tx" (Rich.CallTransferFrom "TestUser" "TestSeller" 2500)
       Scenario.seeded).
Proof.
  apply (decodable_kept goJSON goJSON_laws reliable "tx"
           (Rich.CallTransferFrom "TestUser" "TestSeller" 2500) Scenario.seeded);
    [discriminate | exact decodable_seeded].
Defined.

End KeptFacts.

(** ** Transfers in sequence, and how they fail *)

Section Sequences.
Import strconv GoInt.

(** X12.  A transfer is undone by the transfer back: after
    [TransferFrom(A, B, value)] and then [TransferFrom(B, A, value)] every
    stored balance is what it was, provided the host takes the calls, the
    recipient's balance is non-negative and can take the amount. *)
Theorem transfer_back (J : JSON) (HJ : JSONLaws J) (h : Host)
    (tx1 tx2 A B : string) (value : Z) (w : gmap string string) :
  A <> B -> is_int value -> 0 <= value ->
  getError h A = None -> getError h B = None ->
  putError h A = None -> putError h B = None -> eventError h = None ->
  (forall b,
     w !! A = Some b -> value <= (Atoi b).1 ->
     0 <= Compact.stored w B -> Compact.stored w B + value <= MaxInt ->
     exists w1 w2 e1 e2,
       invoke h tx1 (Compact.TransferFrom A B value) w = (Ok tt, w1, e1)
       /\ invoke h tx2 (Compact.TransferFrom B A value) w1 = (Ok tt, w2, e2)
       /\ forall id, Compact.stored w2 id = Compact.stored w id)
  /\ (forall a t,
        Rich.stored w A = Some a -> value <= a ->
        Rich.stored w B = Some t -> 0 <= t -> t + value <= MaxInt ->
        exists w1 w2 e1 e2,
          invoke h tx1 (Rich.TransferFrom A B value) w = (Ok tt, w1, e1)
          /\ invoke h tx2 (Rich.TransferFrom B A value) w1 = (Ok tt, w2, e2)
          /\ forall id, Rich.stored w2 id = Rich.stored w id).
Proof.
  intros Hne Hi Hv HgA HgB HpA HpB He. split.
  - intros b Hb Hle Ht Hfit.
    pose proof (Atoi_is_int b) as Hbi.
    assert (is_int (Compact.stored w B)) as Hti.
    { unfold Compact.stored. destruct (w !! B); [apply Atoi_is_int |].
      unfold is_int, MinInt, MaxInt. lia. }
    assert (Compact.stored w A = (Atoi b).1) as HA
      by (unfold Compact.stored; by rewrite Hb).
    pose proof (Compact_TransferFrom_run A B value (begin h tx1 w) b Hne Hv
                  HgA HgB HpA HpB He Hb Hle) as Hrun1.
    apply invoke_run in Hrun1. cbn [begin wset events world app] in Hrun1.
    rewrite commit_two in Hrun1.
    assert (sub (Atoi b).1 value = (Atoi b).1 - value) as Hsub.
    { apply wrap_id. unfold is_int, MinInt, MaxInt in *. lia. }
    assert (add (Compact.stored w B) value = Compact.stored w B + value) as Hadd.
    { apply wrap_id. unfold is_int, MinInt, MaxInt in *. lia. }
    rewrite Hsub, Hadd in Hrun1.
    set (w1 := <[B := Itoa (Compact.stored w B + value)]>
                 (<[A := Itoa ((Atoi b).1 - value)]> w)) in *.
    assert (w1 !! B = Some (Itoa (Compact.stored w B + value))) as HB1
      by apply lookup_insert_eq.
    assert (Atoi (Itoa (Compact.stored w B + value))
            = (Compact.stored w B + value, None)) as HAB.
    { apply Atoi_Itoa. unfold is_int, MinInt, MaxInt in *. lia. }
    assert (Compact.stored w1 A = (Atoi b).1 - value) as HA1.
    { unfold w1. rewrite !Compact_stored_insert.
      rewrite decide_False, decide_True by done.
      rewrite Atoi_Itoa; [done |]. unfold is_int, MinInt, MaxInt in *. lia. }
    pose proof (Compact_TransferFrom_run B A value (begin h tx2 w1) _
                  ltac:(done) Hv HgB HgA HpB HpA He HB1
                  ltac:(rewrite HAB; cbn [fst]; lia)) as Hrun2.
    apply invoke_run in Hrun2. cbn [begin wset events world app] in Hrun2.
    rewrite commit_two, HAB, HA1 in Hrun2. cbn [fst] in Hrun2.
    assert (sub (Compact.stored w B + value) value = Compact.stored w B) as Hsub2.
    { unfold sub. rewrite wrap_id; [lia |]. unfold is_int, MinInt, MaxInt in *. lia. }
    assert (add ((Atoi b).1 - value) value = (Atoi b).1) as Hadd2.
    { unfold add. rewrite wrap_id; [lia |]. unfold is_int, MinInt, MaxInt in *. lia. }
    rewrite Hsub2, Hadd2 in Hrun2.
    do 4 eexists. split; [exact Hrun1 |]. split; [exact Hrun2 |].
    intros id. unfold w1. rewrite !Compact_stored_insert.
    rewrite !Atoi_Itoa by (unfold is_int, MinInt, MaxInt in *; lia). cbn [fst].
    destruct (decide (A = id)) as [<- |]; [done |].
    destruct (decide (B = id)) as [<- |]; done.
  - intros a t HA Hle HB Ht Hfit.
    unfold Rich.stored in HA, HB.
    destruct (UnmarshalUser (bytesOf (w !! A))) as [fu |] eqn:Hfu; [| done].
    destruct (UnmarshalUser (bytesOf (w !! B))) as [tu |] eqn:Htu; [| done].
    injection HA as <-. injection HB as <-.
    pose proof (unmarshal_user_int J HJ _ _ Hfu) as Hfi.
    pose proof (unmarshal_user_int J HJ _ _ Htu) as Hti.
    pose proof (Rich_TransferFrom_run A B value (begin h tx1 w) fu tu Hne Hv
                  HgA HgB HpA HpB He Hfu Htu Hle) as Hrun1.
    apply invoke_run in Hrun1. cbn [begin wset events world app] in Hrun1.
    rewrite commit_two in Hrun1.
    set (w1 := <[B := MarshalUser (credit tu value)]>
                 (<[A := MarshalUser (debit fu value)]> w)) in *.
    assert (Balance (debit fu value) = Balance fu - value) as Hdeb.
    { cbn. apply wrap_id. unfold is_int, MinInt, MaxInt in *. lia. }
    assert (Balance (credit tu value) = Balance tu + value) as Hcre.
    { cbn. apply wrap_id. unfold is_int, MinInt, MaxInt in *. lia. }
    destruct (marshal_user_balance J HJ (credit tu value))
      as (tu1 & Htu1 & Htb); [rewrite Hcre; unfold is_int, MinInt, MaxInt in *; lia |].
    destruct (marshal_user_balance J HJ (debit fu value))
      as (fu1 & Hfu1 & Hfb); [rewrite Hdeb; unfold is_int, MinInt, MaxInt in *; lia |].
    assert (UnmarshalUser (bytesOf (w1 !! B)) = Ok tu1) as HB1.
    { unfold w1. by rewrite lookup_insert_eq. }
    assert (UnmarshalUser (bytesOf (w1 !! A)) = Ok fu1) as HA1.
    { unfold w1. by rewrite lookup_insert_ne, lookup_insert_eq. }
    pose proof (Rich_TransferFrom_run B A value (begin h tx2 w1) tu1 fu1
                  ltac:(done) Hv HgB HgA HpB HpA He HB1 HA1
                  ltac:(rewrite Htb, Hcre; lia)) as Hrun2.
    apply invoke_run in Hrun2. cbn [begin wset events world app] in Hrun2.
    rewrite commit_two in Hrun2.
    do 4 eexists. split; [exact Hrun1 |]. split; [exact Hrun2 |].
    intros id. rewrite !Rich_stored_insert.
    assert (Balance (credit fu1 value) = Balance fu) as Hback1.
    { cbn. rewrite Hfb, Hdeb. unfold add. rewrite wrap_id; [lia |].
      unfold is_int, MinInt, MaxInt in *. lia. }
    assert (Balance (debit tu1 value) = Balance tu) as Hback2.
    { cbn. rewrite Htb, Hcre. unfold sub. rewrite wrap_id; [lia |].
      unfold is_int, MinInt, MaxInt in *. lia. }
    rewrite !Rich_stored_marshal by (done || congruence).
    rewrite Hback1, Hback2. unfold Rich.stored.
    destruct (decide (A = id)) as [<- |]; [by rewrite Hfu |].
    destruct (decide (B = id)) as [<- |]; [by rewrite Htu |].
    unfold w1. by rewrite !lookup_insert_ne.
Qed.

Lemma transfer_back_witness :
  exists w1 w2 e1 e2,
    invoke reliable "tx1" (Compact.TransferFrom "A" "B" 2) Scenario.pairCompact
    = (Ok tt, w1, e1)
    /\ invoke reliable "tx2" (Compact.TransferFrom "B" "A" 2) w1 = (Ok tt, w2, e2)
    /\ forall id, Compact.stored w2 id = Compact.stored Scenario.pairCompact id.
Proof.
  apply (proj1 (transfer_back goJSON goJSON_laws reliable "tx1" "tx2" "A" "B" 2
                  Scenario.pairCompact ltac:(discriminate)
                  ltac:(unfold is_int, MinInt, MaxInt; lia) ltac:(lia)
                  eq_refl eq_refl eq_refl eq_refl eq_refl) "5");
    [reflexivity | | | ]; vm_compute; discriminate.
Defined.

Ltac failed_transfer :=
  first
    [ left; eexists; split; [reflexivity |]; left; symmetry; apply app_nil_r
    | left; eexists; split; [reflexivity |]; by left
    | left; eexists; split; [reflexivity |]; right; by eexists
    | right; do 3 eexists; split; [reflexivity |]; split; [done |];
      by rewrite <- app_assoc ].

(** X13.  How [TransferFrom] fails, in both files.  No event is set.  An
    error of [transferHelper] comes back behind the prefix
    [failed to transfer: ], with nothing staged or only the sender's write;
    the only other error is the host's refusal of the event, behind the
    prefix [failed to set event: ], and then both balance writes are
    staged. *)
Theorem TransferFrom_errors (J : JSON) (from to : string) (value : Z)
    (st st' : Stub) (msg : string) :
  Compact.TransferFrom from to value st = (Err msg, st')
  \/ Rich.TransferFrom from to value st = (Err msg, st') ->
  events st' = events st
  /\ ((exists m, msg = "failed to transfer: " +:+ m
                 /\ (wset st' = wset st
                     \/ exists v, wset st' = (wset st ++ [(from, v)])%list))
      \/ (exists m v1 v2,
            msg = "failed to set event: " +:+ m
            /\ eventError (host st) = Some m
            /\ wset st' = (wset st ++ [(from, v1); (to, v2)])%list)).
Proof.
  intros [H | H]; revert H.
  - unfold Compact.TransferFrom, Compact.SetEvent, Compact.transferHelper.
    crunch; try (intros [= <- <-]; split; [done | failed_transfer]).
    destruct (world st !! from) as [b |]; step;
      [| intros [= <- <-]; split; [done | failed_transfer]].
    crunch; intros [= <- <-]; (split; [done |]); cbn [wset]; failed_transfer.
  - unfold Rich.TransferFrom, Rich.SetEvent, Rich.transferHelper, Rich.GetUser.
    crunch; intros [= <- <-]; (split; [done |]); cbn [wset]; failed_transfer.
Qed.

Lemma TransferFrom_errors_witness :
  events (Rich.TransferFrom "A" "B" 2 (begin Scenario.mute "tx" Scenario.pairRich)).2
  = events (begin Scenario.mute "tx" Scenario.pairRich)
  /\ ((exists m, "failed to set event: refused" = "failed to transfer: " +:+ m
         /\ (wset (Rich.TransferFrom "A" "B" 2
                     (begin Scenario.mute "tx" Scenario.pairRich)).2
             = wset (begin Scenario.mute "tx" Scenario.pairRich)
             \/ exists v,
                 wset (Rich.TransferFrom "A" "B" 2
                         (begin Scenario.mute "tx" Scenario.pairRich)).2
                 = (wset (begin Scenario.mute "tx" Scenario.pairRich)
                      ++ [("A", v)])%list))
      \/ (exists m v1 v2,
            "failed to set event: refused" = "failed to set event: " +:+ m
            /\ eventError (host (begin Scenario.mute "tx" Scenario.pairRich)) = Some m
            /\ wset (Rich.TransferFrom "A" "B" 2
                       (begin Scenario.mute "tx" Scenario.pairRich)).2
               = (wset (begin Scenario.mute "tx" Scenario.pairRich)
                    ++ [("A", v1); ("B", v2)])%list)).
Proof.
  apply (TransferFrom_errors goJSON "A" "B" 2
           (begin Scenario.mute "tx" Scenario.pairRich)
           (Rich.TransferFrom "A" "B" 2 (begin Scenario.mute "tx" Scenario.pairRich)).2
           "failed to set event: refused").
  right. vm_compute. reflexivity.
Defined.

End Sequences.

(** ** One namespace, untagged records *)

Section Namespace.
Import strconv GoInt Digits GoJSON Reader.

Lemma bytesOf_Some (b : string) : bytesOf (Some b) = b.
Proof. reflexivity. Qed.

Lemma readObject_marshalUser u :
  is_int (Balance u) ->
  readObject (marshalUser u)
  = Object [("ID", VString (ID u)); ("type", VString (Type_ u));
            ("balance", VNumber (Balance u))].
Proof.
  intros Hi. destruct u as [id ty bal]. cbn [Balance] in Hi.
  unfold marshalUser, readObject. cbn [ID Type_ Balance].
  rewrite !append_cons, !append_nil.
  cbn [skipSpace]. change (isSpace "{") with false. cbv iota.
  change (Ascii.eqb "{" "{") with true. cbv iota.
  match goal with |- context [readMembers (String.length ?s) ?s] =>
    set (doc := s); set (fuel := String.length doc) end.
  assert (exists k, fuel = S (S (S k))) as [k ->].
  { subst fuel doc. rewrite !member_app. cbn [String.length]. eauto. }
  assert (skipSpace doc = doc /\ exists r, doc = String dq r) as [-> [r Hr]].
  { subst doc. rewrite member_app. split; [reflexivity | eauto]. }
  rewrite Hr. change (Ascii.eqb dq "}") with false. cbv iota. rewrite <- Hr.
  subst doc.
  do 2 rewrite readMembers_string by (intros r'; reflexivity).
  rewrite readMembers_int by (done || intros r'; reflexivity).
  reflexivity.
Qed.

Lemma unmarshalTransaction_marshalUser u :
  is_int (Balance u) ->
  unmarshalTransaction (marshalUser u) = Ok (mkTransaction "" "" "" 0).
Proof.
  intros Hi. unfold unmarshalTransaction.
  rewrite readObject_marshalUser by done. reflexivity.
Qed.

Lemma unmarshalUser_Itoa i : is_int i -> unmarshalUser (Itoa i) = Err badInput.
Proof.
  intros Hi. destruct (Itoa_head i Hi) as (c & s & -> & Hsp & _ & Hnum).
  unfold unmarshalUser, readObject. cbn [skipSpace]. rewrite Hsp.
  assert (Ascii.eqb c "{" = false) as ->; [| reflexivity].
  clear -Hnum. unfold is_digit in Hnum.
  destruct c as [[] [] [] [] [] [] [] []]; try discriminate Hnum; reflexivity.
Qed.

(** X14.  Records carry no tag and the decoder skips members it does not
    know.  With the concrete decoder: [GetTransaction] of a key that holds
    a [User] record succeeds with the empty [Transaction], and [BalanceOf]
    of a key that holds a [Transaction] record succeeds with 0. *)
Theorem untagged_records (h : Host) (tx id : string) (w : gmap string string) :
  getError h id = None ->
  (forall u, is_int (Balance u) -> w !! id = Some (MarshalUser u) ->
     invoke h tx (Rich.GetTransaction id) w
     = (Ok (mkTransaction "" "" "" 0), w, [])
     /\ invoke h tx (Compact.GetTransaction id) w
        = (Ok (mkTransaction "" "" "" 0), w, []))
  /\ (forall t, is_int (TxValue t) -> w !! id = Some (MarshalTransaction t) ->
        invoke h tx (Rich.BalanceOf id) w = (Ok 0, w, [])
        /\ invoke h tx (Compact.BalanceOf id) w = (Ok 0, w, [])).
Proof.
  intros Hg. split.
  - intros u Hu Hw. unfold invoke, begin, Rich.GetTransaction, Compact.GetTransaction.
    run_stub. rewrite Hg, Hw. change (bytesOf (Some ?x)) with x.
    cbn [UnmarshalTransaction MarshalUser goJSON].
    rewrite unmarshalTransaction_marshalUser by done. split; reflexivity.
  - intros t Ht Hw.
    unfold invoke, begin, Rich.BalanceOf, Compact.BalanceOf, Rich.GetUser,
      Compact.GetUser.
    run_stub. rewrite Hg, Hw. change (bytesOf (Some ?x)) with x.
    cbn [UnmarshalUser MarshalTransaction goJSON].
    rewrite unmarshalUser_marshalTransaction by done. split; reflexivity.
Qed.

Lemma untagged_records_witness :
  invoke reliable "tx" (Rich.GetTransaction "TestUser") Scenario.seeded
  = (Ok (mkTransaction "" "" "" 0), Scenario.seeded, [])
  /\ invoke reliable "tx" (Compact.GetTransaction "TestUser") Scenario.seeded
     = (Ok (mkTransaction "" "" "" 0), Scenario.seeded, []).
Proof.
  apply (proj1 (untagged_records reliable "tx" "TestUser" Scenario.seeded eq_refl)
           (mkUser "TestUser" "user" 100000));
    [unfold is_int, MinInt, MaxInt; cbn; lia | reflexivity].
Defined.

(** X15.  [SetTransaction] checks nothing: for every [from], [to] and
    amount (equal accounts, unknown accounts, a negative amount) it
    succeeds when the host takes the write, reads nothing, emits nothing
    and replaces whatever was stored under the transaction id, leaving the
    other keys.  With the concrete decoder the transaction id then also
    answers as an account: [UserExist] says [true] and [BalanceOf] says 0. *)
Theorem SetTransaction_outcome (h h' : Host) (tx tx' from to : string)
    (value : Z) (w : gmap string string) :
  is_int value -> putError h tx = None -> getError h' tx = None ->
  let t := mkTransaction tx from to value in
  let w' := <[tx := MarshalTransaction t]> w in
  Rich.SetTransaction from to value (begin h tx w)
  = (Ok t, mkStub h tx w [] [(tx, MarshalTransaction t)] [])
  /\ invoke h tx (Rich.SetTransaction from to value) w = (Ok t, w', [])
  /\ (forall k, k <> tx -> w' !! k = w !! k)
  /\ invoke h' tx' (Rich.UserExist tx) w' = (Ok true, w', [])
  /\ invoke h' tx' (Rich.BalanceOf tx) w' = (Ok 0, w', []).
Proof.
  intros Hi Hp Hg. cbv zeta.
  assert (Rich.SetTransaction from to value (begin h tx w)
          = (Ok (mkTransaction tx from to value),
             mkStub h tx w [] [(tx, MarshalTransaction
                                     (mkTransaction tx from to value))] []))
    as Hrun.
  { unfold Rich.SetTransaction, begin. run_stub. by rewrite Hp. }
  split; [exact Hrun |]. split; [by rewrite (invoke_run _ _ _ _ _ _ Hrun) |].
  split; [intros k Hk; by rewrite lookup_insert_ne |].
  unfold invoke, begin, Rich.UserExist, Rich.BalanceOf, Rich.GetUser.
  run_stub. rewrite Hg, lookup_insert_eq. rewrite bytesOf_Some.
  cbn [UnmarshalUser MarshalTransaction goJSON].
  rewrite unmarshalUser_marshalTransaction by done.
  repeat split.
Qed.

Lemma SetTransaction_outcome_witness :
  Rich.SetTransaction "A" "A" (-7) (begin reliable "TestUser" Scenario.seeded)
  = (Ok (mkTransaction "TestUser" "A" "A" (-7)),
     mkStub reliable "TestUser" Scenario.seeded []
       [("TestUser", MarshalTransaction (mkTransaction "TestUser" "A" "A" (-7)))] [])
  /\ invoke reliable "TestUser" (Rich.SetTransaction "A" "A" (-7)) Scenario.seeded
     = (Ok (mkTransaction "TestUser" "A" "A" (-7)),
        <["TestUser" := MarshalTransaction (mkTransaction "TestUser" "A" "A" (-7))]>
          Scenario.seeded, [])
  /\ (forall k, k <> "TestUser" ->
        (<["TestUser" := MarshalTransaction (mkTransaction "TestUser" "A" "A" (-7))]>
           Scenario.seeded) !! k = Scenario.seeded !! k)
  /\ invoke reliable "tx2" (Rich.UserExist "TestUser")
       (<["TestUser" := MarshalTransaction (mkTransaction "TestUser" "A" "A" (-7))]>
          Scenario.seeded)
     = (Ok true,
        <["TestUser" := MarshalTransaction (mkTransaction "TestUser" "A" "A" (-7))]>
          Scenario.seeded, [])
  /\ invoke reliable "tx2" (Rich.BalanceOf "TestUser")
       (<["TestUser" := MarshalTransaction (mkTransaction "TestUser" "A" "A" (-7))]>
          Scenario.seeded)
     = (Ok 0,
        <["TestUser" := MarshalTransaction (mkTransaction "TestUser" "A" "A" (-7))]>
          Scenario.seeded, []).
Proof.
  apply (SetTransaction_outcome reliable reliable "TestUser" "tx2" "A" "A" (-7)
           Scenario.seeded);
    [unfold is_int, MinInt, MaxInt; lia | reflexivity | reflexivity].
Defined.

(** X16.  In [token_contract.go] a successful [TransferFrom] leaves integer
    strings under [from] and [to], which [BalanceOf] of the same file
    cannot decode: with the concrete decoder, after every successful
    transfer [BalanceOf] fails on both accounts. *)
Theorem balance_lost_after_transfer (h h' : Host) (tx tx' from to : string)
    (value : Z) (w w' : gmap string string) (evs : list (string * string)) :
  invoke h tx (Compact.TransferFrom from to value) w = (Ok tt, w', evs) ->
  invoke h' tx' (Compact.BalanceOf from) w'
  = (Err ("user id " +:+ from +:+ " does not exist"), w', [])
  /\ invoke h' tx' (Compact.BalanceOf to) w'
     = (Err ("user id " +:+ to +:+ " does not exist"), w', []).
Proof.
  intros Hrun. apply invoke_ok in Hrun as (st & Hst & -> & _).
  apply Compact_TransferFrom_ok in Hst as (Hne & _ & b & _ & _ & ->).
  cbn [begin wset app]. rewrite commit_two.
  unfold invoke, begin, Compact.BalanceOf, Compact.GetUser. run_stub.
  rewrite lookup_insert_eq, lookup_insert_ne, lookup_insert_eq by done.
  split; [destruct (getError h' from) | destruct (getError h' to)]; step;
    try reflexivity; rewrite bytesOf_Some; cbn [UnmarshalUser goJSON];
    rewrite unmarshalUser_Itoa by apply is_int_wrap; reflexivity.
Qed.

Lemma balance_lost_after_transfer_witness :
  invoke reliable "tx2" (Compact.BalanceOf "A") {[ "A" := "3"; "B" := "3" ]}
  = (Err ("user id " +:+ "A" +:+ " does not exist"), {[ "A" := "3"; "B" := "3" ]}, [])
  /\ invoke reliable "tx2" (Compact.BalanceOf "B") {[ "A" := "3"; "B" := "3" ]}
     = (Err ("user id " +:+ "B" +:+ " does not exist"), {[ "A" := "3"; "B" := "3" ]}, []).
Proof.
  apply (balance_lost_after_transfer reliable reliable "tx" "tx2" "A" "B" 2
           Scenario.pairCompact {[ "A" := "3"; "B" := "3" ]}
           [Scenario.transferred "A" "B" 2]).
  vm_compute. reflexivity.
Defined.

End Namespace.

(** ** The total supply *)

Section SupplyFacts.
Import strconv GoInt Supply.

Lemma total_insert worth (w : gmap string string) k v :
  total worth (<[k := v]> w)
  = total worth w - match w !! k with Some b => worth b | None => 0 end + worth v.
Proof.
  unfold total. destruct (w !! k) as [b |] eqn:Hk.
  - rewrite <- insert_delete_eq.
    rewrite map_fold_insert_L; [| intros; lia | apply lookup_delete_eq].
    rewrite (map_fold_delete_L _ _ k b w); [lia | intros; lia | done].
  - rewrite map_fold_insert_L; [lia | intros; lia | done].
Qed.

Lemma Compact_stored_is_int (w : gmap string string) id :
  is_int (Compact.stored w id).
Proof.
  unfold Compact.stored. destruct (w !! id); [apply Atoi_is_int |].
  unfold is_int, MinInt, MaxInt. lia.
Qed.

(** X17.  The total supply is conserved: a successful [TransferFrom] that
    does not overflow the recipient's balance leaves the sum of all stored
    balances, over every key of the world state, as it was.  This holds in
    both files. *)
Theorem supply_conserved (J : JSON) (HJ : JSONLaws J) (h : Host)
    (tx from to : string) (value : Z) (w w' : gmap string string)
    (evs : list (string * string)) :
  is_int value ->
  (invoke h tx (Compact.TransferFrom from to value) w = (Ok tt, w', evs) ->
   Compact.stored w to + value <= MaxInt ->
   total asInteger w' = total asInteger w)
  /\ (invoke h tx (Rich.TransferFrom from to value) w = (Ok tt, w', evs) ->
      (forall t, Rich.stored w to = Some t -> t + value <= MaxInt) ->
      total asRecord w' = total asRecord w).
Proof.
  intros Hvalue. split; intros Hrun Hfit.
  - apply Compact_TransferFrom_balances in Hrun
      as (Hne & Hv & [b Hb] & -> & _); [| done].
    pose proof (Compact_stored_is_int w from) as Hfi.
    pose proof (Compact_stored_is_int w to) as Hti.
    rewrite !total_insert, lookup_insert_ne by done. unfold asInteger.
    rewrite !Atoi_Itoa
      by (apply is_int_wrap || (unfold is_int, MinInt, MaxInt in *; lia)).
    cbn [fst]. rewrite wrap_id by (unfold is_int, MinInt, MaxInt in *; lia).
    unfold Compact.stored. destruct (w !! from), (w !! to); lia.
  - pose proof Hrun as Hrun'.
    apply Rich_TransferFrom_balances in Hrun
      as (fu & tu & Hfu & Htu & Hne & Hv & -> & _); [| done | done].
    pose proof (unmarshal_user_int J HJ _ _ Hfu) as Hfi.
    pose proof (unmarshal_user_int J HJ _ _ Htu) as Hti.
    assert (Balance tu + value <= MaxInt) as Hfit'.
    { apply Hfit. unfold Rich.stored. by rewrite Htu. }
    destruct (unmarshal_user_empty J HJ) as [msg Hempty].
    assert (exists bf, w !! from = Some bf /\ UnmarshalUser bf = Ok fu) as (bf & Hbf & Hdf).
    { destruct (w !! from) as [bf |]; [eauto |]. cbn in Hfu. congruence. }
    assert (exists bt, w !! to = Some bt /\ UnmarshalUser bt = Ok tu) as (bt & Hbt & Hdt).
    { destruct (w !! to) as [bt |]; [eauto |]. cbn in Htu. congruence. }
    rewrite !total_insert, lookup_insert_ne, Hbf, Hbt by done. unfold asRecord.
    rewrite Hdf, Hdt.
    rewrite wrap_id by (unfold is_int, MinInt, MaxInt in *; lia).
    destruct (marshal_user_balance J HJ
                (mkUser (ID fu) (Type_ fu) (Balance fu - value)))
      as (fu' & -> & ->); [cbn; unfold is_int, MinInt, MaxInt in *; lia |].
    destruct (marshal_user_balance J HJ
                (mkUser (ID tu) (Type_ tu) (Balance tu + value)))
      as (tu' & -> & ->); [cbn; unfold is_int, MinInt, MaxInt in *; lia |].
    cbn [Balance]. lia.
Qed.

Lemma supply_conserved_witness :
  total asInteger {[ "A" := "3"; "B" := "3" ]} = total asInteger Scenario.pairCompact.
Proof.
  apply (proj1 (supply_conserved goJSON goJSON_laws reliable "tx" "A" "B" 2
                  Scenario.pairCompact {[ "A" := "3"; "B" := "3" ]}
                  [Scenario.transferred "A" "B" 2]
                  ltac:(unfold is_int, MinInt, MaxInt; lia)));
    [vm_compute; reflexivity | vm_compute; discriminate].
Defined.

(** X18.  Two transfers in a row between the same accounts leave the
    balances that the one transfer of the sum leaves, provided the sender
    can pay the sum and the recipient can take it; in [token_contract.go]
    the two world states are the same. *)
Theorem transfers_add_up (J : JSON) (HJ : JSONLaws J) (h : Host)
    (tx A B : string) (v1 v2 : Z) (w : gmap string string) :
  A <> B -> 0 <= v1 -> 0 <= v2 -> is_int (v1 + v2) ->
  getError h A = None -> getError h B = None ->
  putError h A = None -> putError h B = None -> eventError h = None ->
  (forall b,
     w !! A = Some b -> v1 + v2 <= (Atoi b).1 ->
     Compact.stored w B + (v1 + v2) <= MaxInt ->
     exists w1 w2 e1 e2 e12,
       invoke h tx (Compact.TransferFrom A B v1) w = (Ok tt, w1, e1)
       /\ invoke h tx (Compact.TransferFrom A B v2) w1 = (Ok tt, w2, e2)
       /\ invoke h tx (Compact.TransferFrom A B (v1 + v2)) w = (Ok tt, w2, e12))
  /\ (forall a t,
        Rich.stored w A = Some a -> v1 + v2 <= a ->
        Rich.stored w B = Some t -> t + (v1 + v2) <= MaxInt ->
        exists w1 w2 w12 e1 e2 e12,
          invoke h tx (Rich.TransferFrom A B v1) w = (Ok tt, w1, e1)
          /\ invoke h tx (Rich.TransferFrom A B v2) w1 = (Ok tt, w2, e2)
          /\ invoke h tx (Rich.TransferFrom A B (v1 + v2)) w = (Ok tt, w12, e12)
          /\ forall id, Rich.stored w2 id = Rich.stored w12 id).
Proof.
  intros Hne Hv1 Hv2 Hi HgA HgB HpA HpB He.
  assert (is_int v1 /\ is_int v2) as [Hi1 Hi2]
    by (unfold is_int, MinInt, MaxInt in *; lia).
  split.
  - intros b Hb Hle Hfit.
    pose proof (Atoi_is_int b) as Hbi.
    assert (is_int (Compact.stored w B)) as Hti.
    { unfold Compact.stored. destruct (w !! B); [apply Atoi_is_int |].
      unfold is_int, MinInt, MaxInt. lia. }
    pose proof (Compact_TransferFrom_run A B v1 (begin h tx w) b Hne Hv1
                  HgA HgB HpA HpB He Hb ltac:(lia)) as Hrun1.
    apply invoke_run in Hrun1. cbn [begin wset events world app] in Hrun1.
    rewrite commit_two in Hrun1.
    pose proof (Compact_TransferFrom_run A B (v1 + v2) (begin h tx w) b Hne
                  ltac:(lia) HgA HgB HpA HpB He Hb Hle) as Hrun12.
    apply invoke_run in Hrun12. cbn [begin wset events world app] in Hrun12.
    rewrite commit_two in Hrun12.
    unfold sub, add in Hrun1, Hrun12.
    rewrite !wrap_id in Hrun1, Hrun12
      by (unfold is_int, MinInt, MaxInt in *; lia).
    set (w1 := <[B := Itoa (Compact.stored w B + v1)]>
                 (<[A := Itoa ((Atoi b).1 - v1)]> w)) in *.
    assert (w1 !! A = Some (Itoa ((Atoi b).1 - v1))) as HA1.
    { unfold w1. by rewrite lookup_insert_ne, lookup_insert_eq. }
    assert (Atoi (Itoa ((Atoi b).1 - v1)) = ((Atoi b).1 - v1, None)) as HAA.
    { apply Atoi_Itoa. unfold is_int, MinInt, MaxInt in *. lia. }
    assert (Compact.stored w1 B = Compact.stored w B + v1) as HB1.
    { unfold w1. rewrite Compact_stored_insert, decide_True by done.
      rewrite Atoi_Itoa; [done |]. unfold is_int, MinInt, MaxInt in *. lia. }
    pose proof (Compact_TransferFrom_run A B v2 (begin h tx w1) _ Hne Hv2
                  HgA HgB HpA HpB He HA1
                  ltac:(rewrite HAA; cbn [fst]; lia)) as Hrun2.
    apply invoke_run in Hrun2. cbn [begin wset events world app] in Hrun2.
    rewrite commit_two, HAA, HB1 in Hrun2. cbn [fst] in Hrun2.
    unfold sub, add in Hrun2.
    rewrite !wrap_id in Hrun2 by (unfold is_int, MinInt, MaxInt in *; lia).
    do 5 eexists. split; [exact Hrun1 |]. split; [exact Hrun2 |].
    rewrite Hrun12. f_equal. f_equal. unfold w1.
    replace ((Atoi b).1 - v1 - v2) with ((Atoi b).1 - (v1 + v2)) by lia.
    replace (Compact.stored w B + v1 + v2) with (Compact.stored w B + (v1 + v2))
      by lia.
    apply map_eq. intros k. rewrite !lookup_insert. repeat case_decide; done.
  - intros a t HA Hle HB Hfit.
    unfold Rich.stored in HA, HB.
    destruct (UnmarshalUser (bytesOf (w !! A))) as [fu |] eqn:Hfu; [| done].
    destruct (UnmarshalUser (bytesOf (w !! B))) as [tu |] eqn:Htu; [| done].
    injection HA as <-. injection HB as <-.
    pose proof (unmarshal_user_int J HJ _ _ Hfu) as Hfi.
    pose proof (unmarshal_user_int J HJ _ _ Htu) as Hti.
    pose proof (Rich_TransferFrom_run A B v1 (begin h tx w) fu tu Hne Hv1
                  HgA HgB HpA HpB He Hfu Htu ltac:(lia)) as Hrun1.
    apply invoke_run in Hrun1. cbn [begin wset events world app] in Hrun1.
    rewrite commit_two in Hrun1.
    pose proof (Rich_TransferFrom_run A B (v1 + v2) (begin h tx w) fu tu Hne
                  ltac:(lia) HgA HgB HpA HpB He Hfu Htu Hle) as Hrun12.
    apply invoke_run in Hrun12. cbn [begin wset events world app] in Hrun12.
    rewrite commit_two in Hrun12.
    set (w1 := <[B := MarshalUser (credit tu v1)]>
                 (<[A := MarshalUser (debit fu v1)]> w)) in *.
    assert (Balance (debit fu v1) = Balance fu - v1) as Hdeb.
    { cbn. apply wrap_id. unfold is_int, MinInt, MaxInt in *. lia. }
    assert (Balance (credit tu v1) = Balance tu + v1) as Hcre.
    { cbn. apply wrap_id. unfold is_int, MinInt, MaxInt in *. lia. }
    destruct (marshal_user_balance J HJ (credit tu v1))
      as (tu1 & Htu1 & Htb); [rewrite Hcre; unfold is_int, MinInt, MaxInt in *; lia |].
    destruct (marshal_user_balance J HJ (debit fu v1))
      as (fu1 & Hfu1 & Hfb); [rewrite Hdeb; unfold is_int, MinInt, MaxInt in *; lia |].
    assert (UnmarshalUser (bytesOf (w1 !! B)) = Ok tu1) as HB1.
    { unfold w1. by rewrite lookup_insert_eq. }
    assert (UnmarshalUser (bytesOf (w1 !! A)) = Ok fu1) as HA1.
    { unfold w1. by rewrite lookup_insert_ne, lookup_insert_eq. }
    pose proof (Rich_TransferFrom_run A B v2 (begin h tx w1) fu1 tu1 Hne Hv2
                  HgA HgB HpA HpB He HA1 HB1
                  ltac:(rewrite Hfb, Hdeb; lia)) as Hrun2.
    apply invoke_run in Hrun2. cbn [begin wset events world app] in Hrun2.
    rewrite commit_two in Hrun2.
    do 6 eexists. split; [exact Hrun1 |]. split; [exact Hrun2 |].
    split; [exact Hrun12 |].
    intros id. rewrite !Rich_stored_insert.
    assert (Balance (debit fu1 v2) = Balance (debit fu (v1 + v2))) as Hd.
    { cbn. rewrite Hfb, Hdeb. unfold sub.
      rewrite !wrap_id by (unfold is_int, MinInt, MaxInt in *; lia). lia. }
    assert (Balance (credit tu1 v2) = Balance (credit tu (v1 + v2))) as Hc.
    { cbn. rewrite Htb, Hcre. unfold add.
      rewrite !wrap_id by (unfold is_int, MinInt, MaxInt in *; lia). lia. }
    rewrite !Rich_stored_marshal by (done || apply is_int_wrap).
    rewrite Hd, Hc.
    destruct (decide (B = id)) as [<- |]; [done |].
    destruct (decide (A = id)) as [<- |]; [done |].
    unfold Rich.stored, w1. by rewrite !lookup_insert_ne.
Qed.

Lemma transfers_add_up_witness :
  exists w1 w2 e1 e2 e12,
    invoke reliable "tx" (Compact.TransferFrom "A" "B" 1) Scenario.pairCompact
    = (Ok tt, w1, e1)
    /\ invoke reliable "tx" (Compact.TransferFrom "A" "B" 2) w1 = (Ok tt, w2, e2)
    /\ invoke reliable "tx" (Compact.TransferFrom "A" "B" (1 + 2)) Scenario.pairCompact
       = (Ok tt, w2, e12).
Proof.
  apply (proj1 (transfers_add_up goJSON goJSON_laws reliable "tx" "A" "B" 1 2
                  Scenario.pairCompact ltac:(discriminate) ltac:(lia) ltac:(lia)
                  ltac:(unfold is_int, MinInt, MaxInt; lia)
                  eq_refl eq_refl eq_refl eq_refl eq_refl) "5");
    [reflexivity | | ]; vm_compute; discriminate.
Defined.

End SupplyFacts.
